(** * The debug server of Prepack: [src/debugger/server/Debugger.js]

    A shallow embedding of the class [DebugServer] and the properties of
    its command loop, checkpoint hook, stack and scope inspection, path
    translation and stop-severity policy. *)

From Stdlib Require Import ZArith List String Ascii Bool Lia.
From Stdlib Require Import Numbers.DecimalString.
Import ListNotations.

Local Open Scope list_scope.
Local Open Scope string_scope.

(** ** JavaScript values used by the server *)

(** A string is truthy when it is not empty. *)
Definition truthy_string (s : string) : bool :=
  match s with
  | EmptyString => false
  | String _ _ => true
  end.

(** A value of type [void | null | string]: [None] stands for [undefined]
    and [null], both falsy. *)
Definition truthy (v : option string) : bool :=
  match v with
  | Some s => truthy_string s
  | None => false
  end.

(** [a || b] on an optional string and a string. *)
Definition or_else (v : option string) (d : string) : string :=
  match v with
  | Some s => if truthy_string s then s else d
  | None => d
  end.

(** The decimal digits of an integer, with a minus sign before a negative
    one. This is what [+] with a string makes of a number that is an
    integer of magnitude below [2^53]; [number_to_string] uses it for these
    numbers only. *)
Definition string_of_number (z : Z) : string :=
  NilZero.string_of_int (Z.to_int z).

(** A number, as a frame id is one. An integer of magnitude below [2^53]
    is [Integer]; a number that is not an integer is given by the integer
    just below it and by its rendering as a string; a number of magnitude
    [2^53] or more, the infinities among them, is given by its sign and its
    rendering; and there is [NaN]. The renderings are those of the
    language, which the model does not compute: [0.5] is
    [NonIntegral 0 "0.5"], [10^21] is [Huge false "1e+21"]. *)
Inductive Number :=
| Integer (z : Z)
| NonIntegral (floor : Z) (shown : string)
| Huge (negative : bool) (shown : string)
| NaN.

Bind Scope Z_scope with Number.
Coercion Integer : Z >-> Number.


(** [f < bound] and [f >= bound] for an integer [bound] of magnitude below
    [2^53]; every comparison with [NaN] is false. *)
Definition below (f : Number) (bound : Z) : bool :=
  match f with
  | Integer z => (z <? bound)%Z
  | NonIntegral floor _ => (floor <? bound)%Z
  | Huge negative _ => negative
  | NaN => false
  end.

Definition at_least (f : Number) (bound : Z) : bool :=
  match f with
  | Integer z => (bound <=? z)%Z
  | NonIntegral floor _ => (bound <=? floor)%Z
  | Huge negative _ => negb negative
  | NaN => false
  end.

(** The number as [+] with a string renders it. *)
Definition number_to_string (f : Number) : string :=
  match f with
  | Integer z => string_of_number z
  | NonIntegral _ shown => shown
  | Huge _ shown => shown
  | NaN => "NaN"
  end.

(** [a - f] when it is an integer: an array is read at such an index
    only. *)
Definition integer_minus (a : Z) (f : Number) : option Z :=
  match f with
  | Integer z => Some (a - z)%Z
  | _ => None
  end.

(** [array[index]]: [undefined] at an index that is not an integer, is
    negative or is past the end. *)
Definition element {A} (array : list A) (index : option Z) : option A :=
  match index with
  | Some i => if (i <? 0)%Z then None else nth_error array (Z.to_nat i)
  | None => None
  end.

(** [strip_prefix p s] is the rest of [s] after [p] when [s] starts with
    [p]. *)
Fixpoint strip_prefix (p s : string) : option string :=
  match p with
  | EmptyString => Some s
  | String a p' =>
      match s with
      | EmptyString => None
      | String b s' => if Ascii.eqb a b then strip_prefix p' s' else None
      end
  end.

Definition starts_with (p s : string) : bool :=
  match strip_prefix p s with
  | Some _ => true
  | None => false
  end.

(** [occurs p s]: the pattern [p] is found somewhere in [s]. *)
Fixpoint occurs (p s : string) : bool :=
  if starts_with p s then true
  else match s with
       | EmptyString => false
       | String _ s' => occurs p s'
       end.

(** [String.prototype.replace] with a string pattern and the empty
    replacement: the leftmost match of [p] in [s] is removed; without a
    match the result is [s]. *)
Fixpoint replace_first (p s : string) : string :=
  match strip_prefix p s with
  | Some rest => rest
  | None =>
      match s with
      | EmptyString => EmptyString
      | String c s' => String c (replace_first p s')
      end
  end.

(** ** Path translator *)

Module PathTranslator.

(** [_relativeToAbsolute]: the template string [`${prefix}${path}`]. *)
Definition _relativeToAbsolute (_sourcemapPrefix path : string) : string :=
  _sourcemapPrefix ++ path.

(** [_absoluteToRelative]: [path.replace(prefix, "")]. *)
Definition _absoluteToRelative (_sourcemapPrefix path : string) : string :=
  replace_first _sourcemapPrefix path.

(** The wording of the specification for [toRelative], "strips the prefix
    (first occurrence)": [s] splits as [before ++ p ++ rest] and no split
    of [s] around [p] has a shorter part before [p]. *)
Definition first_occurrence (p s before rest : string) : Prop :=
  s = before ++ p ++ rest /\
  forall before' rest', s = before' ++ p ++ rest' ->
    String.length before <= String.length before'.

Definition no_occurrence (p s : string) : Prop :=
  forall before rest, s <> before ++ p ++ rest.

End PathTranslator.

(** ** Stop severity policy *)

Module Severity.

(** The type [Severity] of [errors.js] is the union of these four string
    literals. *)
Inductive Severity := Information | Warning | RecoverableError | FatalError.

Definition name (s : Severity) : string :=
  match s with
  | Information => "Information"
  | Warning => "Warning"
  | RecoverableError => "RecoverableError"
  | FatalError => "FatalError"
  end.

(** Position in the order Information < Warning < RecoverableError <
    FatalError. *)
Definition rank (s : Severity) : nat :=
  match s with
  | Information => 0
  | Warning => 1
  | RecoverableError => 2
  | FatalError => 3
  end.

Definition at_or_above (s t : Severity) : Prop := rank t <= rank s.

End Severity.

(** Errors raised by the server. *)
Inductive Error :=
| DebuggerError (errorType message : string)
| InvariantViolation (message : string).

(** [shouldStopForSeverity]: a switch on the configured threshold
    [_diagnosticSeverity], both values being strings at run time. *)
Definition shouldStopForSeverity (_diagnosticSeverity severity : string)
  : Error + bool :=
  if String.eqb _diagnosticSeverity "Information" then inr true
  else if String.eqb _diagnosticSeverity "Warning" then
    inr (negb (String.eqb severity "Information"))
  else if String.eqb _diagnosticSeverity "RecoverableError" then
    inr (String.eqb severity "RecoverableError" || String.eqb severity "FatalError")
  else if String.eqb _diagnosticSeverity "FatalError" then
    inr (String.eqb severity "FatalError")
  else inl (InvariantViolation "Unexpected severity type").

(** ** Data model *)

Record Position := { line : Z; column : Z }.

(** [BabelNodeSourceLocation]; only [source] and [start] are read by the
    server. *)
Record BabelNodeSourceLocation := {
  source : option string;
  start : Position
}.

(** [BabelNode]: the node kind and its optional location. *)
Record BabelNode := {
  type : string;
  loc : option BabelNodeSourceLocation
}.

(** [SourceData], the last-executed marker. *)
Record SourceData := {
  filePath : string;
  sd_line : Z;
  sd_column : Z;
  stackSize : nat
}.

(** [Breakpoint] as carried by a breakpoint request. *)
Record Breakpoint := {
  bp_filePath : string;
  bp_line : Z;
  bp_column : Z;
  bp_enabled : bool
}.

Record Stackframe := {
  id : nat;
  functionName : string;
  fileName : string;
  sf_line : Z;
  sf_column : Z
}.

Record Scope := {
  name : string;
  variablesReference : Z;
  expensive : bool
}.

(** The function value of a frame or of a function environment record. *)
Record FunctionValue := { __originalName : option string }.

(** Modelled from the spec: the classes of [environment.js] are not part of
    the sources at hand. The specification lists the kinds global,
    function-local, other declarative and dynamic object; the function
    record is a declarative record ([FunctionEnvironmentRecord] is tested
    under [DeclarativeEnvironmentRecord] in [_getScopeName]).
    [BareEnvironmentRecord] is an instance of the base class
    [EnvironmentRecord] that belongs to none of the four. *)
Inductive EnvironmentRecord :=
| GlobalEnvironmentRecord
| FunctionEnvironmentRecord (FunctionObject : FunctionValue)
| DeclarativeEnvironmentRecord
| ObjectEnvironmentRecord
| BareEnvironmentRecord.

Inductive EnvironmentClass :=
| ClassGlobal | ClassDeclarative | ClassFunction | ClassObject.

(** [envRec instanceof C]. *)
Definition instanceof (envRec : EnvironmentRecord) (C : EnvironmentClass) : bool :=
  match envRec, C with
  | GlobalEnvironmentRecord, ClassGlobal => true
  | FunctionEnvironmentRecord _, ClassDeclarative => true
  | FunctionEnvironmentRecord _, ClassFunction => true
  | DeclarativeEnvironmentRecord, ClassDeclarative => true
  | ObjectEnvironmentRecord, ClassObject => true
  | _, _ => false
  end.

Definition known_kind (envRec : EnvironmentRecord) : bool :=
  match envRec with
  | BareEnvironmentRecord => false
  | _ => true
  end.

(** [LexicalEnvironment]: a record and the link to the enclosing
    environment; the outermost environment has the parent [null]. *)
Inductive LexicalEnvironment :=
| OutermostEnvironment (environmentRecord : EnvironmentRecord)
| InnerEnvironment (environmentRecord : EnvironmentRecord)
                   (parent : LexicalEnvironment).

Definition environmentRecord (e : LexicalEnvironment) : EnvironmentRecord :=
  match e with
  | OutermostEnvironment r => r
  | InnerEnvironment r _ => r
  end.

Definition parent (e : LexicalEnvironment) : option LexicalEnvironment :=
  match e with
  | OutermostEnvironment _ => None
  | InnerEnvironment _ p => Some p
  end.

(** The environments met by following [parent] from [e] until [null],
    innermost first. *)
Fixpoint environment_chain (e : LexicalEnvironment) : list LexicalEnvironment :=
  match e with
  | OutermostEnvironment _ => [e]
  | InnerEnvironment _ p => e :: environment_chain p
  end.

Definition chain_of (e : option LexicalEnvironment) : list LexicalEnvironment :=
  match e with
  | Some e => environment_chain e
  | None => []
  end.

(** [ExecutionContext], a frame of [realm.contextStack]. *)
Record ExecutionContext := {
  function : option FunctionValue;
  ec_loc : option BabelNodeSourceLocation;
  lexicalEnvironment : option LexicalEnvironment
}.

(** Argument variants of a request, tagged by [kind]. *)
Inductive DebuggerRequestArguments :=
| BreakpointArguments (breakpoints : list Breakpoint)
| RunArguments
| StackframeArguments
| ScopesArguments (frameId : Number)
| VariablesArguments (variablesReference : Z)
| EvaluateArguments (frameId : option Z) (expression : string).

Definition kind (args : DebuggerRequestArguments) : string :=
  match args with
  | BreakpointArguments _ => "breakpoint"
  | RunArguments => "run"
  | StackframeArguments => "stackframe"
  | ScopesArguments _ => "scopes"
  | VariablesArguments _ => "variables"
  | EvaluateArguments _ _ => "evaluate"
  end.

Record DebuggerRequest := {
  rq_id : Z;
  command : string;
  arguments : DebuggerRequestArguments
}.

(** The command names and acknowledgement names of [DebugMessage.js], which
    is not part of the sources at hand: a table of string constants. *)
Record DebugMessageTable := {
  BREAKPOINT_ADD_COMMAND : string;
  BREAKPOINT_REMOVE_COMMAND : string;
  BREAKPOINT_ENABLE_COMMAND : string;
  BREAKPOINT_DISABLE_COMMAND : string;
  PREPACK_RUN_COMMAND : string;
  STACKFRAMES_COMMAND : string;
  SCOPES_COMMAND : string;
  VARIABLES_COMMAND : string;
  STEPINTO_COMMAND : string;
  STEPOVER_COMMAND : string;
  STEPOUT_COMMAND : string;
  EVALUATE_COMMAND : string;
  BREAKPOINT_ADD_ACKNOWLEDGE : string;
  BREAKPOINT_REMOVE_ACKNOWLEDGE : string;
  BREAKPOINT_ENABLE_ACKNOWLEDGE : string;
  BREAKPOINT_DISABLE_ACKNOWLEDGE : string
}.

(** [_getScopeName]: the name of a scope, or the failure of its final
    [invariant(false, ...)]. *)
Definition _getScopeName (envRec : EnvironmentRecord) : Error + string :=
  if instanceof envRec ClassGlobal then inr "Global"
  else if instanceof envRec ClassDeclarative then
    match envRec with
    | FunctionEnvironmentRecord FunctionObject =>
        inr ("Local: " ++ or_else (__originalName FunctionObject)
                                  "anonymous function")
    | _ => inr "Block"
    end
  else if instanceof envRec ClassObject then inr "With"
  else inl (InvariantViolation "Invalid type of environment record").

(** [realm.contextStack]: the call stack, innermost frame last. *)
Definition ContextStack := list ExecutionContext.

(** The methods of the collaborators, as recorded when they are called. *)
Inductive Consultation :=
| Call_addBreakpointMulti
| Call_removeBreakpointMulti
| Call_enableBreakpointMulti
| Call_disableBreakpointMulti
| Call_getStoppableBreakpoint
| Call_getAndDeleteCompletedSteppers
| Call_processStepCommand
| Call_getDebuggeeStopReason
| Call_getReferenceForValue
| Call_getVariablesByReference
| Call_evaluate
| Call_clean.

(** Modelled from the spec: [BreakpointManager.js], [SteppingManager.js],
    [StopEventManager.js] and [VariableManager.js] are not part of the
    sources at hand. Their contracts are taken as an interface: each
    manager is a state, each method a total function that returns its
    result and the manager's next state. The step and variable managers
    were built with the realm and may read its call stack. *)
Class Collaborators := {
  StoppableObject : Type;
  VariableList : Type;
  EvaluateResult : Type;
  BreakpointManager : Type;
  SteppingManager : Type;
  StopEventManager : Type;
  VariableManager : Type;
  addBreakpointMulti :
    BreakpointManager -> list Breakpoint -> BreakpointManager;
  removeBreakpointMulti :
    BreakpointManager -> list Breakpoint -> BreakpointManager;
  enableBreakpointMulti :
    BreakpointManager -> list Breakpoint -> BreakpointManager;
  disableBreakpointMulti :
    BreakpointManager -> list Breakpoint -> BreakpointManager;
  getStoppableBreakpoint :
    BreakpointManager -> BabelNode -> option StoppableObject * BreakpointManager;
  getAndDeleteCompletedSteppers :
    SteppingManager -> ContextStack -> BabelNode ->
    list StoppableObject * SteppingManager;
  processStepCommand :
    SteppingManager -> ContextStack -> string -> BabelNodeSourceLocation ->
    SteppingManager;
  getDebuggeeStopReason :
    StopEventManager -> BabelNode -> list StoppableObject ->
    option string * StopEventManager;
  getReferenceForValue :
    VariableManager -> LexicalEnvironment -> Z * VariableManager;
  getVariablesByReference :
    VariableManager -> ContextStack -> Z -> VariableList * VariableManager;
  evaluate :
    VariableManager -> ContextStack -> option Z -> string ->
    EvaluateResult * VariableManager;
  clean : VariableManager -> VariableManager
}.

Section Server.

Context {C : Collaborators}.
Variable DebugMessage : DebugMessageTable.

(** Messages written to the channel. *)
Inductive Message :=
| StoppedResponse (reason filePath : string) (line column : Z)
| BreakpointsAcknowledge (messageType : string) (requestID : Z)
                         (args : DebuggerRequestArguments)
| StackframeResponse (requestID : Z) (frameInfos : list Stackframe)
| ScopesResponse (requestID : Z) (scopes : list Scope)
| VariablesResponse (requestID : Z) (variables : VariableList)
| EvaluateResponse (requestID : Z) (evalResult : EvaluateResult).

(** Modelled from the spec: [DebugChannel.js] is not part of the sources
    at hand. The channel holds the requests the adapter has written and
    the server has not read yet, and the messages the server has sent,
    oldest first. *)
Record DebugChannel := {
  pending : list DebuggerRequest;
  sent : list Message
}.

(** The fields of [DebugServer]; [_realm] is the call stack of the realm
    and [consulted] the history of the calls made to the collaborators. *)
Record DebugServer := {
  _breakpointManager : BreakpointManager;
  _channel : DebugChannel;
  _realm : ContextStack;
  _variableManager : VariableManager;
  _stepManager : SteppingManager;
  _stopEventManager : StopEventManager;
  _lastExecuted : option SourceData;
  _sourcemapPrefix : string;
  _diagnosticSeverity : string;
  consulted : list Consultation
}.

Definition set_breakpointManager (s : DebugServer) b : DebugServer :=
  {| _breakpointManager := b; _channel := _channel s; _realm := _realm s;
     _variableManager := _variableManager s; _stepManager := _stepManager s;
     _stopEventManager := _stopEventManager s;
     _lastExecuted := _lastExecuted s;
     _sourcemapPrefix := _sourcemapPrefix s;
     _diagnosticSeverity := _diagnosticSeverity s;
     consulted := consulted s |}.

Definition set_channel (s : DebugServer) c : DebugServer :=
  {| _breakpointManager := _breakpointManager s; _channel := c;
     _realm := _realm s;
     _variableManager := _variableManager s; _stepManager := _stepManager s;
     _stopEventManager := _stopEventManager s;
     _lastExecuted := _lastExecuted s;
     _sourcemapPrefix := _sourcemapPrefix s;
     _diagnosticSeverity := _diagnosticSeverity s;
     consulted := consulted s |}.

Definition set_realm (s : DebugServer) r : DebugServer :=
  {| _breakpointManager := _breakpointManager s; _channel := _channel s;
     _realm := r;
     _variableManager := _variableManager s; _stepManager := _stepManager s;
     _stopEventManager := _stopEventManager s;
     _lastExecuted := _lastExecuted s;
     _sourcemapPrefix := _sourcemapPrefix s;
     _diagnosticSeverity := _diagnosticSeverity s;
     consulted := consulted s |}.

Definition set_variableManager (s : DebugServer) v : DebugServer :=
  {| _breakpointManager := _breakpointManager s; _channel := _channel s;
     _realm := _realm s;
     _variableManager := v; _stepManager := _stepManager s;
     _stopEventManager := _stopEventManager s;
     _lastExecuted := _lastExecuted s;
     _sourcemapPrefix := _sourcemapPrefix s;
     _diagnosticSeverity := _diagnosticSeverity s;
     consulted := consulted s |}.

Definition set_stepManager (s : DebugServer) m : DebugServer :=
  {| _breakpointManager := _breakpointManager s; _channel := _channel s;
     _realm := _realm s;
     _variableManager := _variableManager s; _stepManager := m;
     _stopEventManager := _stopEventManager s;
     _lastExecuted := _lastExecuted s;
     _sourcemapPrefix := _sourcemapPrefix s;
     _diagnosticSeverity := _diagnosticSeverity s;
     consulted := consulted s |}.

Definition set_stopEventManager (s : DebugServer) m : DebugServer :=
  {| _breakpointManager := _breakpointManager s; _channel := _channel s;
     _realm := _realm s;
     _variableManager := _variableManager s; _stepManager := _stepManager s;
     _stopEventManager := m;
     _lastExecuted := _lastExecuted s;
     _sourcemapPrefix := _sourcemapPrefix s;
     _diagnosticSeverity := _diagnosticSeverity s;
     consulted := consulted s |}.

Definition set_lastExecuted (s : DebugServer) m : DebugServer :=
  {| _breakpointManager := _breakpointManager s; _channel := _channel s;
     _realm := _realm s;
     _variableManager := _variableManager s; _stepManager := _stepManager s;
     _stopEventManager := _stopEventManager s;
     _lastExecuted := m;
     _sourcemapPrefix := _sourcemapPrefix s;
     _diagnosticSeverity := _diagnosticSeverity s;
     consulted := consulted s |}.

Definition note (s : DebugServer) (c : Consultation) : DebugServer :=
  {| _breakpointManager := _breakpointManager s; _channel := _channel s;
     _realm := _realm s;
     _variableManager := _variableManager s; _stepManager := _stepManager s;
     _stopEventManager := _stopEventManager s;
     _lastExecuted := _lastExecuted s;
     _sourcemapPrefix := _sourcemapPrefix s;
     _diagnosticSeverity := _diagnosticSeverity s;
     consulted := (consulted s ++ [c])%list |}.

(** ** Control: normal return, exception, or a read on an empty channel *)

Inductive Outcome (A : Type) :=
| Returned (a : A) (s : DebugServer)
| Thrown (e : Error) (s : DebugServer)
| Waiting (s : DebugServer).

Arguments Returned {A} a s.
Arguments Thrown {A} e s.
Arguments Waiting {A} s.

Definition final {A} (o : Outcome A) : DebugServer :=
  match o with
  | Returned _ s => s
  | Thrown _ s => s
  | Waiting s => s
  end.

Definition M (A : Type) := DebugServer -> Outcome A.

Definition ret {A} (a : A) : M A := fun s => Returned a s.

Definition bind {A B} (m : M A) (k : A -> M B) : M B :=
  fun s =>
    match m s with
    | Returned a s' => k a s'
    | Thrown e s' => Thrown e s'
    | Waiting s' => Waiting s'
    end.

Definition throw {A} (e : Error) : M A := fun s => Thrown e s.

Definition get : M DebugServer := fun s => Returned s s.

Definition modify (f : DebugServer -> DebugServer) : M unit :=
  fun s => Returned tt (f s).

(** [invariant(condition, message)] of [common/invariant.js]. *)
Definition invariant (condition : bool) (message : string) : M unit :=
  if condition then ret tt else throw (InvariantViolation message).

(** A call of a function that returns or throws without touching the
    server. *)
Definition lift {A} (r : Error + A) : M A :=
  match r with
  | inr a => ret a
  | inl e => throw e
  end.

(** A message is appended to the channel's output. *)
Definition send (m : Message) : M unit :=
  modify (fun s =>
    set_channel s {| pending := pending (_channel s);
                     sent := (sent (_channel s) ++ [m])%list |}).

Notation "x <- m ;; k" := (bind m (fun x => k))
  (at level 61, m at next level, right associativity).
Notation "m ;;; k" := (bind m (fun _ => k))
  (at level 61, right associativity).

(** ** Paths *)

Definition _relativeToAbsolute (path : string) : M string :=
  s <- get ;; ret (PathTranslator._relativeToAbsolute (_sourcemapPrefix s) path).

Definition _absoluteToRelative (path : string) : M string :=
  s <- get ;; ret (PathTranslator._absoluteToRelative (_sourcemapPrefix s) path).

(** ** Stack frames *)

(** The object returned by [_getFrameLocation]. *)
Record FrameLocation := {
  fl_fileName : string;
  fl_line : Z;
  fl_column : Z
}.

Definition _getFrameLocation (loc : option BabelNodeSourceLocation)
  : FrameLocation :=
  match loc with
  | Some l =>
      match source l with
      | Some src =>
          if truthy_string src then
            {| fl_fileName := src;
               fl_line := line (start l);
               fl_column := column (start l) |}
          else {| fl_fileName := "unknown"; fl_line := 0; fl_column := 0 |}
      | None => {| fl_fileName := "unknown"; fl_line := 0; fl_column := 0 |}
      end
  | None => {| fl_fileName := "unknown"; fl_line := 0; fl_column := 0 |}
  end.

(** The name shown for a frame: [__originalName] of its function when
    both are truthy. *)
Definition frame_functionName (frame : ExecutionContext) : string :=
  match function frame with
  | Some f => or_else (__originalName f) "(anonymous function)"
  | None => "(anonymous function)"
  end.

(** The loop of [processStackframesCommand], entered with [i = k - 1] and
    left when [i] falls below [0]; [loc] and [frameInfos] are the loop's
    variables. An index outside the stack is never read. *)
Fixpoint stackframes_loop (prefix : string) (contextStack : ContextStack)
    (k : nat) (loc : FrameLocation) (frameInfos : list Stackframe)
  : list Stackframe :=
  match k with
  | O => frameInfos
  | S i =>
      match nth_error contextStack i with
      | Some frame =>
          let frameInfo :=
            {| id := List.length contextStack - 1 - i;
               functionName := frame_functionName frame;
               fileName :=
                 PathTranslator._relativeToAbsolute prefix (fl_fileName loc);
               sf_line := fl_line loc;
               sf_column := fl_column loc |} in
          stackframes_loop prefix contextStack i
            (_getFrameLocation (ec_loc frame))
            (frameInfos ++ [frameInfo])%list
      | None => frameInfos
      end
  end.

Definition processStackframesCommand (requestID : Z)
    (args : DebuggerRequestArguments)
    (astLoc : option BabelNodeSourceLocation) : M unit :=
  s <- get ;;
  let frameInfos :=
    stackframes_loop (_sourcemapPrefix s) (_realm s)
      (List.length (_realm s)) (_getFrameLocation astLoc) [] in
  send (StackframeResponse requestID frameInfos).

(** ** Scopes *)

Definition call_getReferenceForValue (lexicalEnv : LexicalEnvironment)
  : M Z :=
  fun s =>
    let (ref, vm) := getReferenceForValue (_variableManager s) lexicalEnv in
    Returned ref (note (set_variableManager s vm) Call_getReferenceForValue).

(** The [while (lexicalEnv)] loop of [processScopesCommand], from a
    non-null environment. *)
Fixpoint scopes_loop (lexicalEnv : LexicalEnvironment) (scopes : list Scope)
  : M (list Scope) :=
  scopeName <- lift (_getScopeName (environmentRecord lexicalEnv)) ;;
  ref <- call_getReferenceForValue lexicalEnv ;;
  let scope :=
    {| name := scopeName; variablesReference := ref; expensive := false |} in
  match lexicalEnv with
  | InnerEnvironment _ p => scopes_loop p (scopes ++ [scope])%list
  | OutermostEnvironment _ => ret (scopes ++ [scope])%list
  end.

Definition processScopesCommand (requestID : Z) (frameId : Number) : M unit :=
  s <- get ;;
  let length := Z.of_nat (List.length (_realm s)) in
  if below frameId 0 || at_least frameId length then
    throw (DebuggerError "Invalid command"
             ("Invalid frame id for scopes request: "
                ++ number_to_string frameId))
  else
    let stackIndex := integer_minus (length - 1) frameId in
    match element (_realm s) stackIndex with
    | None => throw (InvariantViolation "")
    | Some context =>
        scopes <- match lexicalEnvironment context with
                  | Some lexicalEnv => scopes_loop lexicalEnv []
                  | None => ret []
                  end ;;
        send (ScopesResponse requestID scopes)
    end.

(** ** Variables and evaluation *)

Definition processVariablesCommand (requestID : Z) (variablesReference : Z)
  : M unit :=
  variables <- (fun s =>
    let (vars, vm) :=
      getVariablesByReference (_variableManager s) (_realm s)
        variablesReference in
    Returned vars
      (note (set_variableManager s vm) Call_getVariablesByReference)) ;;
  send (VariablesResponse requestID variables).

Definition processEvaluateCommand (requestID : Z) (frameId : option Z)
    (expression : string) : M unit :=
  evalResult <- (fun s =>
    let (res, vm) :=
      evaluate (_variableManager s) (_realm s) frameId expression in
    Returned res (note (set_variableManager s vm) Call_evaluate)) ;;
  send (EvaluateResponse requestID evalResult).

Definition _onDebuggeeResume : M unit :=
  modify (fun s =>
    note (set_variableManager s (clean (_variableManager s))) Call_clean).

(** ** The command dispatcher *)

(** [if (loc && loc.source) loc.source = this._absoluteToRelative(loc.source)]:
    the location object is written in place; the result is the object
    after the statement. *)
Definition relativize_loc (prefix : string)
    (loc : option BabelNodeSourceLocation) : option BabelNodeSourceLocation :=
  match loc with
  | Some l =>
      match source l with
      | Some src =>
          if truthy_string src then
            Some {| source := Some (PathTranslator._absoluteToRelative prefix src);
                    start := start l |}
          else loc
      | None => loc
      end
  | None => None
  end.

(** [if (args.kind === "breakpoint") for (let bp of args.breakpoints) ...]:
    the breakpoints of the request are written in place. *)
Definition relativize_args (prefix : string) (args : DebuggerRequestArguments)
  : DebuggerRequestArguments :=
  match args with
  | BreakpointArguments breakpoints =>
      BreakpointArguments
        (map (fun bp =>
                {| bp_filePath :=
                     PathTranslator._absoluteToRelative prefix (bp_filePath bp);
                   bp_line := bp_line bp;
                   bp_column := bp_column bp;
                   bp_enabled := bp_enabled bp |}) breakpoints)
  | _ => args
  end.

Definition breakpoints_of (args : DebuggerRequestArguments) : list Breakpoint :=
  match args with
  | BreakpointArguments breakpoints => breakpoints
  | _ => []
  end.

Definition call_breakpointManager
    (method : BreakpointManager -> list Breakpoint -> BreakpointManager)
    (c : Consultation) (breakpoints : list Breakpoint) : M unit :=
  modify (fun s =>
    note (set_breakpointManager s (method (_breakpointManager s) breakpoints)) c).

Definition call_processStepCommand (kind : string)
    (loc : BabelNodeSourceLocation) : M unit :=
  modify (fun s =>
    note (set_stepManager s
            (processStepCommand (_stepManager s) (_realm s) kind loc))
         Call_processStepCommand).

(** A breakpoint command: check the kind, hand the batch to the manager,
    acknowledge; the loop stays blocked. *)
Definition breakpoint_command
    (method : BreakpointManager -> list Breakpoint -> BreakpointManager)
    (c : Consultation) (acknowledge : string) (requestID : Z)
    (args : DebuggerRequestArguments) : M bool :=
  invariant (String.eqb (kind args) "breakpoint") "" ;;;
  call_breakpointManager method c (breakpoints_of args) ;;;
  send (BreakpointsAcknowledge acknowledge requestID args) ;;;
  ret false.

(** A step command: the current location must be known. *)
Definition step_command (direction : string)
    (loc : option BabelNodeSourceLocation) : M bool :=
  match loc with
  | None => throw (InvariantViolation "")
  | Some l =>
      call_processStepCommand direction l ;;;
      _onDebuggeeResume ;;;
      ret true
  end.

(** The [switch (command)] of [processDebuggerCommand], on the request
    after the translation of its paths. *)
Definition dispatch (requestID : Z) (command : string)
    (args : DebuggerRequestArguments)
    (loc : option BabelNodeSourceLocation) : M bool :=
  if String.eqb command (BREAKPOINT_ADD_COMMAND DebugMessage) then
    breakpoint_command addBreakpointMulti Call_addBreakpointMulti
      (BREAKPOINT_ADD_ACKNOWLEDGE DebugMessage) requestID args
  else if String.eqb command (BREAKPOINT_REMOVE_COMMAND DebugMessage) then
    breakpoint_command removeBreakpointMulti Call_removeBreakpointMulti
      (BREAKPOINT_REMOVE_ACKNOWLEDGE DebugMessage) requestID args
  else if String.eqb command (BREAKPOINT_ENABLE_COMMAND DebugMessage) then
    breakpoint_command enableBreakpointMulti Call_enableBreakpointMulti
      (BREAKPOINT_ENABLE_ACKNOWLEDGE DebugMessage) requestID args
  else if String.eqb command (BREAKPOINT_DISABLE_COMMAND DebugMessage) then
    breakpoint_command disableBreakpointMulti Call_disableBreakpointMulti
      (BREAKPOINT_DISABLE_ACKNOWLEDGE DebugMessage) requestID args
  else if String.eqb command (PREPACK_RUN_COMMAND DebugMessage) then
    invariant (String.eqb (kind args) "run") "" ;;;
    _onDebuggeeResume ;;;
    ret true
  else if String.eqb command (STACKFRAMES_COMMAND DebugMessage) then
    invariant (String.eqb (kind args) "stackframe") "" ;;;
    processStackframesCommand requestID args loc ;;;
    ret false
  else if String.eqb command (SCOPES_COMMAND DebugMessage) then
    match args with
    | ScopesArguments frameId =>
        processScopesCommand requestID frameId ;;; ret false
    | _ => throw (InvariantViolation "")
    end
  else if String.eqb command (VARIABLES_COMMAND DebugMessage) then
    match args with
    | VariablesArguments variablesReference =>
        processVariablesCommand requestID variablesReference ;;; ret false
    | _ => throw (InvariantViolation "")
    end
  else if String.eqb command (STEPINTO_COMMAND DebugMessage) then
    step_command "in" loc
  else if String.eqb command (STEPOVER_COMMAND DebugMessage) then
    step_command "over" loc
  else if String.eqb command (STEPOUT_COMMAND DebugMessage) then
    step_command "out" loc
  else if String.eqb command (EVALUATE_COMMAND DebugMessage) then
    match args with
    | EvaluateArguments frameId expression =>
        processEvaluateCommand requestID frameId expression ;;; ret false
    | _ => throw (InvariantViolation "")
    end
  else
    throw (DebuggerError "Invalid command"
             ("Invalid command from adapter: " ++ command)).

(** [processDebuggerCommand]: the first component is the location object
    [loc] as the call leaves it, the second whether Prepack unblocks. *)
Definition processDebuggerCommand (request : DebuggerRequest)
    (loc : option BabelNodeSourceLocation) (s : DebugServer)
  : option BabelNodeSourceLocation * Outcome bool :=
  let requestID := rq_id request in
  let command := command request in
  let loc' := relativize_loc (_sourcemapPrefix s) loc in
  let args := relativize_args (_sourcemapPrefix s) (arguments request) in
  (loc', dispatch requestID command args loc' s).

(** The loop of [waitForRun] over the requests that are in the channel.
    [readIn] takes the oldest request; on an empty channel it does not
    return. An exception of [processDebuggerCommand] leaves the loop. *)
Fixpoint waitForRun_loop (requests : list DebuggerRequest)
    (loc : option BabelNodeSourceLocation) (s : DebugServer)
  : option BabelNodeSourceLocation * Outcome unit :=
  match requests with
  | [] => (loc, Waiting s)
  | request :: rest =>
      let s1 := set_channel s {| pending := rest; sent := sent (_channel s) |} in
      match processDebuggerCommand request loc s1 with
      | (loc', Returned keepRunning s2) =>
          if keepRunning then (loc', Returned tt s2)
          else waitForRun_loop rest loc' s2
      | (loc', Thrown e s2) => (loc', Thrown e s2)
      | (loc', Waiting s2) => (loc', Waiting s2)
      end
  end.

Definition waitForRun (loc : option BabelNodeSourceLocation) (s : DebugServer)
  : option BabelNodeSourceLocation * Outcome unit :=
  waitForRun_loop (pending (_channel s)) loc s.

(** ** The checkpoint hook *)

Definition _checkAndUpdateLastExecuted (ast : BabelNode) : M bool :=
  match loc ast with
  | Some l =>
      match source l with
      | Some filePath_ =>
          if truthy_string filePath_ then
            s <- get ;;
            let line_ := line (start l) in
            let column_ := column (start l) in
            let stackSize_ := List.length (_realm s) in
            let same :=
              match _lastExecuted s with
              | Some last =>
                  String.eqb filePath_ (filePath last)
                  && Z.eqb line_ (sd_line last)
                  && Z.eqb column_ (sd_column last)
                  && Nat.eqb stackSize_ (stackSize last)
              | None => false
              end in
            if same then ret false
            else
              modify (fun s =>
                set_lastExecuted s
                  (Some {| filePath := filePath_;
                           sd_line := line_;
                           sd_column := column_;
                           stackSize := List.length (_realm s) |})) ;;;
              ret true
          else ret false
      | None => ret false
      end
  | None => ret false
  end.

Definition call_getAndDeleteCompletedSteppers (ast : BabelNode)
  : M (list StoppableObject) :=
  fun s =>
    let (stoppables, sm) :=
      getAndDeleteCompletedSteppers (_stepManager s) (_realm s) ast in
    Returned stoppables
      (note (set_stepManager s sm) Call_getAndDeleteCompletedSteppers).

Definition call_getStoppableBreakpoint (ast : BabelNode)
  : M (option StoppableObject) :=
  fun s =>
    let (breakpoint, bm) :=
      getStoppableBreakpoint (_breakpointManager s) ast in
    Returned breakpoint
      (note (set_breakpointManager s bm) Call_getStoppableBreakpoint).

Definition call_getDebuggeeStopReason (ast : BabelNode)
    (stoppables : list StoppableObject) : M (option string) :=
  fun s =>
    let (reason, sem) :=
      getDebuggeeStopReason (_stopEventManager s) ast stoppables in
    Returned reason
      (note (set_stopEventManager s sem) Call_getDebuggeeStopReason).

(** The three collaborator calls of [checkForActions]: completed
    steppers, a breakpoint, and the reason chosen among them. *)
Definition stop_reason (ast : BabelNode) : M (option string) :=
  stoppables <- call_getAndDeleteCompletedSteppers ast ;;
  breakpoint <- call_getStoppableBreakpoint ast ;;
  let stoppables :=
    match breakpoint with
    | Some b => (stoppables ++ [b])%list
    | None => stoppables
    end in
  call_getDebuggeeStopReason ast stoppables.

(** The body of [if (reason)] up to the call of [waitForRun]. *)
Definition report_stop (ast : BabelNode) (reason : string) : M unit :=
  match loc ast with
  | Some l =>
      match source l with
      | Some src =>
          invariant (truthy_string src) "" ;;;
          absolutePath <- _relativeToAbsolute src ;;
          send (StoppedResponse reason absolutePath
                  (line (start l)) (column (start l)))
      | None => throw (InvariantViolation "")
      end
  | None => throw (InvariantViolation "")
  end.

(** [checkForActions]: the first component is the node as the call leaves
    it, its location being the object handed to [waitForRun]. *)
Definition checkForActions (ast : BabelNode) (s : DebugServer)
  : BabelNode * Outcome unit :=
  match _checkAndUpdateLastExecuted ast s with
  | Returned true s1 =>
      match stop_reason ast s1 with
      | Returned reason s2 =>
          if truthy reason then
            match report_stop ast (or_else reason "") s2 with
            | Returned _ s3 =>
                let (loc', o) := waitForRun (loc ast) s3 in
                ({| type := type ast; loc := loc' |}, o)
            | Thrown e s3 => (ast, Thrown e s3)
            | Waiting s3 => (ast, Waiting s3)
            end
          else (ast, Returned tt s2)
      | Thrown e s2 => (ast, Thrown e s2)
      | Waiting s2 => (ast, Waiting s2)
      end
  | Returned false s1 => (ast, Returned tt s1)
  | Thrown e s1 => (ast, Thrown e s1)
  | Waiting s1 => (ast, Waiting s1)
  end.

(** The engine reaches a node with the call stack [contextStack]. *)
Definition checkpoint (contextStack : ContextStack) (ast : BabelNode)
    (s : DebugServer) : BabelNode * Outcome unit :=
  checkForActions ast (set_realm s contextStack).

(** Checkpoints reached one after the other, as long as each returns. *)
Fixpoint checkpoints (run : list (ContextStack * BabelNode)) (s : DebugServer)
  : Outcome unit :=
  match run with
  | [] => Returned tt s
  | (contextStack, ast) :: rest =>
      match snd (checkpoint contextStack ast s) with
      | Returned _ s' => checkpoints rest s'
      | o => o
      end
  end.

(** The stopped notifications among the messages. *)
Definition is_stopped (m : Message) : bool :=
  match m with
  | StoppedResponse _ _ _ _ => true
  | _ => false
  end.

End Server.

Arguments Returned {C A} a s.
Arguments Thrown {C A} e s.
Arguments Waiting {C A} s.

(** ** Notions used to state the properties *)

Section Notions.

Context {C : Collaborators}.
Variable DebugMessage : DebugMessageTable.

(** The node has a location with a truthy source. *)
Definition located (ast : BabelNode) : bool :=
  match loc ast with
  | Some l => truthy (source l)
  | None => false
  end.

(** File, line, column and depth of a checkpoint. *)
Definition position_of (contextStack : ContextStack) (ast : BabelNode)
  : option SourceData :=
  match loc ast with
  | Some l =>
      match source l with
      | Some src =>
          if truthy_string src then
            Some {| filePath := src;
                    sd_line := line (start l);
                    sd_column := column (start l);
                    stackSize := List.length contextStack |}
          else None
      | None => None
      end
  | None => None
  end.

(** The command is one of the twelve of the table. *)
Definition recognized (command : string) : bool :=
  existsb (String.eqb command)
    [BREAKPOINT_ADD_COMMAND DebugMessage;
     BREAKPOINT_REMOVE_COMMAND DebugMessage;
     BREAKPOINT_ENABLE_COMMAND DebugMessage;
     BREAKPOINT_DISABLE_COMMAND DebugMessage;
     PREPACK_RUN_COMMAND DebugMessage;
     STACKFRAMES_COMMAND DebugMessage;
     SCOPES_COMMAND DebugMessage;
     VARIABLES_COMMAND DebugMessage;
     STEPINTO_COMMAND DebugMessage;
     STEPOVER_COMMAND DebugMessage;
     STEPOUT_COMMAND DebugMessage;
     EVALUATE_COMMAND DebugMessage].

(** The handles the variable manager gives to the environments of a
    chain, registered in order, and the manager afterwards. *)
Fixpoint registered (vm : VariableManager) (chain : list LexicalEnvironment)
  : list Z * VariableManager :=
  match chain with
  | [] => ([], vm)
  | env :: rest =>
      let (ref, vm') := getReferenceForValue vm env in
      let (refs, vm'') := registered vm' rest in
      (ref :: refs, vm'')
  end.


(** The stopped notifications sent so far. *)
Definition stopped_sent (s : DebugServer) : list Message :=
  filter is_stopped (sent (_channel s)).

(** The frame shown with the id [i] for the engine frame [frame] at the
    location [l]: the file name is made absolute. *)
Definition displayed (prefix : string) (l : FrameLocation) (i : nat)
    (frame : ExecutionContext) : Stackframe :=
  {| id := i;
     functionName := frame_functionName frame;
     fileName := PathTranslator._relativeToAbsolute prefix (fl_fileName l);
     sf_line := fl_line l;
     sf_column := fl_column l |}.

(** The location is known: it is there and its source is truthy. *)
Definition known_location (l : option BabelNodeSourceLocation) : bool :=
  match l with
  | Some l => truthy (source l)
  | None => false
  end.

Definition sentinel : FrameLocation :=
  {| fl_fileName := "unknown"; fl_line := 0; fl_column := 0 |}.

(** The stopped notification for a position and a reason. *)
Definition stopped_at (s : DebugServer) (k : SourceData) (reason : string)
  : Message :=
  StoppedResponse reason
    (PathTranslator._relativeToAbsolute (_sourcemapPrefix s) (filePath k))
    (sd_line k) (sd_column k).

(** [s'] is [s] but for the call stack. *)
Definition same_but_realm (s s' : DebugServer) : Prop :=
  s' = set_realm s (_realm s').

(** [s'] differs from [s] neither in the marker, the call stack and the
    configuration, nor in the stopped notifications sent. *)
Definition quiet (s s' : DebugServer) : Prop :=
  _lastExecuted s' = _lastExecuted s
  /\ _realm s' = _realm s
  /\ _sourcemapPrefix s' = _sourcemapPrefix s
  /\ _diagnosticSeverity s' = _diagnosticSeverity s
  /\ stopped_sent s' = stopped_sent s.

(** Moreover nothing was read from the channel. *)
Definition steady (s s' : DebugServer) : Prop :=
  quiet s s' /\ pending (_channel s') = pending (_channel s).

Definition keeps {A} (m : M A) : Prop :=
  forall s, steady s (final (m s)).

End Notions.

(** ** Session start *)

(** [SourceFile] and [DebuggerConfigArguments] of [types.js], which is not
    part of the sources at hand: the fields the constructor reads. *)
Record SourceFile := {
  sm_filePath : string;
  sourceMapContents : option string
}.

Record DebuggerConfigArguments := {
  sourceMaps : option (list SourceFile);
  diagnosticSeverity : option string
}.

Section SessionStart.

Context {C : Collaborators}.
Variable DebugMessage : DebugMessageTable.

(** [JSON.parse(contents).sources]: the sources listed by a source map, or
    no result when the contents cannot be read. *)
Variable parse_sources : string -> option (list string).

(** [getAbsoluteSourcePath] and [findCommonPrefix] of [PathNormalizer.js],
    which is not part of the sources at hand. *)
Variable getAbsoluteSourcePath : string -> string -> string.
Variable findCommonPrefix : list string -> string.

(** The collaborators as the constructor creates them. *)
Variable new_BreakpointManager : BreakpointManager.
Variable new_VariableManager : ContextStack -> VariableManager.
Variable new_SteppingManager : ContextStack -> bool -> SteppingManager.
Variable new_StopEventManager : StopEventManager.

(** The loop [for (let map of sourceMaps)] of [_findSourcemapPrefix];
    [sourcePaths] is the array filled so far. A map without contents adds
    nothing. *)
Fixpoint collect_sourcePaths (maps : list SourceFile)
    (sourcePaths : list string) : option (list string) :=
  match maps with
  | [] => Some sourcePaths
  | map_ :: rest =>
      match sourceMapContents map_ with
      | Some contents =>
          if truthy_string contents then
            match parse_sources contents with
            | Some sources =>
                collect_sourcePaths rest
                  (sourcePaths
                     ++ map (getAbsoluteSourcePath (sm_filePath map_)) sources)%list
            | None => None
            end
          else collect_sourcePaths rest sourcePaths
      | None => collect_sourcePaths rest sourcePaths
      end
  end.

(** The map has contents to read. *)
Definition has_contents (map_ : SourceFile) : bool :=
  truthy (sourceMapContents map_).

(** The absolute paths of the sources a map lists. *)
Definition listed_paths (map_ : SourceFile) : list string :=
  match sourceMapContents map_ with
  | Some contents =>
      match parse_sources contents with
      | Some sources => map (getAbsoluteSourcePath (sm_filePath map_)) sources
      | None => []
      end
  | None => []
  end.

(** The contents of the map can be read. *)
Definition readable (map_ : SourceFile) : bool :=
  match sourceMapContents map_ with
  | Some contents =>
      match parse_sources contents with
      | Some _ => true
      | None => false
      end
  | None => true
  end.

(** [_findSourcemapPrefix]: the value given to [_sourcemapPrefix], or no
    value when reading a source map fails. The line written to the console
    is not part of the model. *)
Definition _findSourcemapPrefix (sourceMaps : option (list SourceFile))
  : option string :=
  match sourceMaps with
  | Some maps => option_map findCommonPrefix (collect_sourcePaths maps [])
  | None => Some ""
  end.

(** The server as the constructor has set its fields, before it waits for
    the adapter. *)
Definition initial_server (channel : DebugChannel) (realm : ContextStack)
    (configArgs : DebuggerConfigArguments) (prefix : string) : DebugServer :=
  {| _breakpointManager := new_BreakpointManager;
     _channel := channel;
     _realm := realm;
     _variableManager := new_VariableManager realm;
     _stepManager := new_SteppingManager realm false;
     _stopEventManager := new_StopEventManager;
     _lastExecuted := None;
     _sourcemapPrefix := prefix;
     _diagnosticSeverity := or_else (diagnosticSeverity configArgs) "FatalError";
     consulted := [] |}.

(** The constructor of [DebugServer]: the fields are set, the prefix is
    found, and [waitForRun(undefined)] blocks until the adapter says to
    run. *)
Definition DebugServer_constructor (channel : DebugChannel)
    (realm : ContextStack) (configArgs : DebuggerConfigArguments)
  : option (Outcome unit) :=
  match _findSourcemapPrefix (sourceMaps configArgs) with
  | Some prefix =>
      Some (snd (waitForRun DebugMessage None
                   (initial_server channel realm configArgs prefix)))
  | None => None
  end.

End SessionStart.

(** ** Further notions *)

(** The position of the first element of [l] equal to [c]. *)
Fixpoint index_of (c : string) (l : list string) : option nat :=
  match l with
  | [] => None
  | x :: rest =>
      if String.eqb c x then Some 0 else option_map S (index_of c rest)
  end.

Section FurtherNotions.

Context {C : Collaborators}.
Variable DebugMessage : DebugMessageTable.

(** The commands in the order of the cases of [processDebuggerCommand]. *)
Definition command_names : list string :=
  [BREAKPOINT_ADD_COMMAND DebugMessage;
   BREAKPOINT_REMOVE_COMMAND DebugMessage;
   BREAKPOINT_ENABLE_COMMAND DebugMessage;
   BREAKPOINT_DISABLE_COMMAND DebugMessage;
   PREPACK_RUN_COMMAND DebugMessage;
   STACKFRAMES_COMMAND DebugMessage;
   SCOPES_COMMAND DebugMessage;
   VARIABLES_COMMAND DebugMessage;
   STEPINTO_COMMAND DebugMessage;
   STEPOVER_COMMAND DebugMessage;
   STEPOUT_COMMAND DebugMessage;
   EVALUATE_COMMAND DebugMessage].

(** The commands whose case starts with an invariant on [args.kind], with
    the kind it asks for. *)
Definition kind_checks : list (string * string) :=
  [(BREAKPOINT_ADD_COMMAND DebugMessage, "breakpoint");
   (BREAKPOINT_REMOVE_COMMAND DebugMessage, "breakpoint");
   (BREAKPOINT_ENABLE_COMMAND DebugMessage, "breakpoint");
   (BREAKPOINT_DISABLE_COMMAND DebugMessage, "breakpoint");
   (PREPACK_RUN_COMMAND DebugMessage, "run");
   (STACKFRAMES_COMMAND DebugMessage, "stackframe");
   (SCOPES_COMMAND DebugMessage, "scopes");
   (VARIABLES_COMMAND DebugMessage, "variables");
   (EVALUATE_COMMAND DebugMessage, "evaluate")].

(** The step commands with the direction they register. *)
Definition step_commands : list (string * string) :=
  [(STEPINTO_COMMAND DebugMessage, "in");
   (STEPOVER_COMMAND DebugMessage, "over");
   (STEPOUT_COMMAND DebugMessage, "out")].

(** The breakpoint commands with the method of the registry they call and
    the acknowledgement they send. *)
Definition breakpoint_commands
  : list (string
          * ((BreakpointManager -> list Breakpoint -> BreakpointManager)
             * string)) :=
  [(BREAKPOINT_ADD_COMMAND DebugMessage,
    (addBreakpointMulti, BREAKPOINT_ADD_ACKNOWLEDGE DebugMessage));
   (BREAKPOINT_REMOVE_COMMAND DebugMessage,
    (removeBreakpointMulti, BREAKPOINT_REMOVE_ACKNOWLEDGE DebugMessage));
   (BREAKPOINT_ENABLE_COMMAND DebugMessage,
    (enableBreakpointMulti, BREAKPOINT_ENABLE_ACKNOWLEDGE DebugMessage));
   (BREAKPOINT_DISABLE_COMMAND DebugMessage,
    (disableBreakpointMulti, BREAKPOINT_DISABLE_ACKNOWLEDGE DebugMessage))].

(** A breakpoint with its path in relative form. *)
Definition relative_breakpoint (prefix : string) (bp : Breakpoint)
  : Breakpoint :=
  {| bp_filePath := PathTranslator._absoluteToRelative prefix (bp_filePath bp);
     bp_line := bp_line bp;
     bp_column := bp_column bp;
     bp_enabled := bp_enabled bp |}.

(** A breakpoint with its path in absolute form, as the adapter names it. *)
Definition absolute_breakpoint (prefix : string) (bp : Breakpoint)
  : Breakpoint :=
  {| bp_filePath := PathTranslator._relativeToAbsolute prefix (bp_filePath bp);
     bp_line := bp_line bp;
     bp_column := bp_column bp;
     bp_enabled := bp_enabled bp |}.

(** The outcome is an exception. *)
Definition is_thrown {A} (o : Outcome A) : bool :=
  match o with
  | Thrown _ _ => true
  | _ => false
  end.

(** The outcome is a read on an empty channel. *)
Definition is_waiting {A} (o : Outcome A) : bool :=
  match o with
  | Waiting _ => true
  | _ => false
  end.

(** A computation that sends nothing and does not read. *)
Definition silent {A} (m : M A) : Prop :=
  forall s,
    match m s with
    | Returned _ s' => sent (_channel s') = sent (_channel s)
    | Thrown _ s' => sent (_channel s') = sent (_channel s)
    | Waiting _ => False
    end.

(** A computation that sends one message, not a stopped notification, when
    it returns and nothing when it throws. *)
Definition answers {A} (m : M A) : Prop :=
  forall s,
    match m s with
    | Returned _ s' =>
        exists msg,
          sent (_channel s') = (sent (_channel s) ++ [msg])%list
          /\ is_stopped msg = false
    | Thrown _ s' => sent (_channel s') = sent (_channel s)
    | Waiting _ => False
    end.

(** The reply discipline of a request: one message when the server stays
    blocked, none when it resumes or fails. *)
Definition replies_once (o : Outcome bool) (s : DebugServer) : Prop :=
  match o with
  | Returned false s' =>
      exists msg,
        sent (_channel s') = (sent (_channel s) ++ [msg])%list
        /\ is_stopped msg = false
  | Returned true s' => sent (_channel s') = sent (_channel s)
  | Thrown _ s' => sent (_channel s') = sent (_channel s)
  | Waiting _ => False
  end.

End FurtherNotions.

(** ** Reference collaborators

    Executable collaborators and a command table, on which the server is
    run on concrete sessions. *)

Module Reference.

Definition same_place (b : Breakpoint) (b' : Breakpoint) : bool :=
  String.eqb (bp_filePath b) (bp_filePath b')
  && Z.eqb (bp_line b) (bp_line b')
  && Z.eqb (bp_column b) (bp_column b').

Definition at_node (ast : BabelNode) (b : Breakpoint) : bool :=
  match loc ast with
  | Some l =>
      match source l with
      | Some src =>
          String.eqb (bp_filePath b) src
          && Z.eqb (bp_line b) (line (start l))
          && Z.eqb (bp_column b) (column (start l))
      | None => false
      end
  | None => false
  end.

Definition set_enabled (flag : bool) (batch : list Breakpoint)
    (b : Breakpoint) : Breakpoint :=
  if existsb (same_place b) batch then
    {| bp_filePath := bp_filePath b; bp_line := bp_line b;
       bp_column := bp_column b; bp_enabled := flag |}
  else b.

(** A registered step: its direction, the place it started from and the
    depth of the call stack there. *)
Record Step := {
  direction : string;
  origin : BabelNodeSourceLocation;
  origin_depth : nat
}.

Definition same_location (l l' : BabelNodeSourceLocation) : bool :=
  match source l, source l' with
  | Some a, Some b => String.eqb a b
  | None, None => true
  | _, _ => false
  end
  && Z.eqb (line (start l)) (line (start l'))
  && Z.eqb (column (start l)) (column (start l')).

(** A step is completed at a node elsewhere than its origin, at a depth
    allowed by its direction. *)
Definition completed (contextStack : ContextStack) (ast : BabelNode)
    (st : Step) : bool :=
  match loc ast with
  | Some l =>
      negb (same_location l (origin st))
      && (if String.eqb (direction st) "in" then true
          else if String.eqb (direction st) "over"
               then Nat.leb (List.length contextStack) (origin_depth st)
               else Nat.ltb (List.length contextStack) (origin_depth st))
  | None => false
  end.

Inductive Stoppable :=
| StoppableBreakpoint (b : Breakpoint)
| StoppableStepper (st : Step).

Definition reason_of (o : Stoppable) : string :=
  match o with
  | StoppableBreakpoint _ => "Breakpoint"
  | StoppableStepper st =>
      if String.eqb (direction st) "in" then "Step Into"
      else if String.eqb (direction st) "over" then "Step Over"
      else "Step Out"
  end.

Definition is_breakpoint (o : Stoppable) : bool :=
  match o with
  | StoppableBreakpoint _ => true
  | StoppableStepper _ => false
  end.

(** Modelled from the spec: the four collaborators, which are not part
    of the sources at hand, after their contracts: a breakpoint registry
    keyed on path, line and column; one-shot steps; an arbiter that
    prefers a breakpoint; handles that number the registered
    environments and are dropped on resume. *)
#[export] Instance collaborators : Collaborators := {|
  StoppableObject := Stoppable;
  VariableList := option LexicalEnvironment;
  EvaluateResult := string;
  BreakpointManager := list Breakpoint;
  SteppingManager := list Step;
  StopEventManager := unit;
  VariableManager := list LexicalEnvironment;
  addBreakpointMulti := fun bm batch => (bm ++ batch)%list;
  removeBreakpointMulti := fun bm batch =>
    filter (fun b => negb (existsb (same_place b) batch)) bm;
  enableBreakpointMulti := fun bm batch => map (set_enabled true batch) bm;
  disableBreakpointMulti := fun bm batch => map (set_enabled false batch) bm;
  getStoppableBreakpoint := fun bm ast =>
    (option_map StoppableBreakpoint
       (find (fun b => bp_enabled b && at_node ast b) bm), bm);
  getAndDeleteCompletedSteppers := fun sm contextStack ast =>
    (map StoppableStepper (filter (completed contextStack ast) sm),
     filter (fun st => negb (completed contextStack ast st)) sm);
  processStepCommand := fun sm contextStack kind l =>
    (sm ++ [{| direction := kind; origin := l;
               origin_depth := List.length contextStack |}])%list;
  getDebuggeeStopReason := fun sem ast stoppables =>
    (match find is_breakpoint stoppables with
     | Some b => Some (reason_of b)
     | None => option_map reason_of (hd_error stoppables)
     end, sem);
  getReferenceForValue := fun vm env =>
    (Z.of_nat (List.length vm), (vm ++ [env])%list);
  getVariablesByReference := fun vm contextStack ref =>
    (nth_error vm (Z.to_nat ref), vm);
  evaluate := fun vm contextStack frameId expression =>
    ("not available: " ++ expression, vm);
  clean := fun vm => []
|}.

(** Modelled from the spec: the command names of [DebugMessage.js], which
    is not part of the sources at hand, after the list of commands of
    the inbound interface. *)
Definition DebugMessage : DebugMessageTable := {|
  BREAKPOINT_ADD_COMMAND := "breakpoint-add";
  BREAKPOINT_REMOVE_COMMAND := "breakpoint-remove";
  BREAKPOINT_ENABLE_COMMAND := "breakpoint-enable";
  BREAKPOINT_DISABLE_COMMAND := "breakpoint-disable";
  PREPACK_RUN_COMMAND := "run";
  STACKFRAMES_COMMAND := "stack-frames";
  SCOPES_COMMAND := "scopes";
  VARIABLES_COMMAND := "variables";
  STEPINTO_COMMAND := "step-in";
  STEPOVER_COMMAND := "step-over";
  STEPOUT_COMMAND := "step-out";
  EVALUATE_COMMAND := "evaluate";
  BREAKPOINT_ADD_ACKNOWLEDGE := "breakpoint-add-acknowledge";
  BREAKPOINT_REMOVE_ACKNOWLEDGE := "breakpoint-remove-acknowledge";
  BREAKPOINT_ENABLE_ACKNOWLEDGE := "breakpoint-enable-acknowledge";
  BREAKPOINT_DISABLE_ACKNOWLEDGE := "breakpoint-disable-acknowledge"
|}.

(** A session: a prefix, a call stack, requests waiting in the channel. *)
Definition session (prefix : string) (contextStack : ContextStack)
    (requests : list DebuggerRequest) : DebugServer :=
  {| _breakpointManager := ([] : list Breakpoint);
     _channel := {| pending := requests; sent := [] |};
     _realm := contextStack;
     _variableManager := ([] : list LexicalEnvironment);
     _stepManager := ([] : list Step);
     _stopEventManager := tt;
     _lastExecuted := None;
     _sourcemapPrefix := prefix;
     _diagnosticSeverity := "FatalError";
     consulted := [] |}.

Definition at_ (src : string) (l c : Z) : BabelNodeSourceLocation :=
  {| source := Some src; start := {| line := l; column := c |} |}.

Definition node (src : string) (l c : Z) : BabelNode :=
  {| type := "ExpressionStatement"; loc := Some (at_ src l c) |}.

Definition global_frame : ExecutionContext :=
  {| function := None; ec_loc := None;
     lexicalEnvironment := Some (OutermostEnvironment GlobalEnvironmentRecord) |}.

Definition call_frame (fname : string) (site : BabelNodeSourceLocation)
  : ExecutionContext :=
  {| function := Some {| __originalName := Some fname |};
     ec_loc := Some site;
     lexicalEnvironment :=
       Some (InnerEnvironment DeclarativeEnvironmentRecord
               (InnerEnvironment
                  (FunctionEnvironmentRecord {| __originalName := Some fname |})
                  (OutermostEnvironment GlobalEnvironmentRecord))) |}.

Definition request (n : Z) (cmd : string) (args : DebuggerRequestArguments)
  : DebuggerRequest :=
  {| rq_id := n; command := cmd; arguments := args |}.

(** A session whose registry holds an enabled breakpoint at [a], line 10,
    column 2, under the prefix [/p/], with a run request waiting. *)
Definition breakpoint_session : DebugServer :=
  set_breakpointManager
    (session "/p/" [global_frame] [request 1 "run" RunArguments])
    [{| bp_filePath := "a"; bp_line := 10; bp_column := 2;
        bp_enabled := true |}].

Definition position (src : string) (l c : Z) (depth : nat) : SourceData :=
  {| filePath := src; sd_line := l; sd_column := c; stackSize := depth |}.

(** Collaborators that hold nothing and never give a reason to stop. *)
Definition idle_collaborators : Collaborators := {|
  StoppableObject := unit;
  VariableList := unit;
  EvaluateResult := unit;
  BreakpointManager := unit;
  SteppingManager := unit;
  StopEventManager := unit;
  VariableManager := unit;
  addBreakpointMulti := fun bm _ => bm;
  removeBreakpointMulti := fun bm _ => bm;
  enableBreakpointMulti := fun bm _ => bm;
  disableBreakpointMulti := fun bm _ => bm;
  getStoppableBreakpoint := fun bm _ => (None, bm);
  getAndDeleteCompletedSteppers := fun sm _ _ => ([], sm);
  processStepCommand := fun sm _ _ _ => sm;
  getDebuggeeStopReason := fun sem _ _ => (None, sem);
  getReferenceForValue := fun vm _ => (0%Z, vm);
  getVariablesByReference := fun vm _ _ => (tt, vm);
  evaluate := fun vm _ _ _ => (tt, vm);
  clean := fun vm => vm
|}.

(** A call stack of depth two: [main] called from [a.js], line 3. *)
Definition two_frames : ContextStack :=
  [global_frame; call_frame "main" (at_ "a.js" 3 1)].

End Reference.

(** * Properties *)

(** ** Strings *)

Lemma strip_prefix_app (p s : string) : strip_prefix p (p ++ s) = Some s.
Proof.
  induction p as [|a p IH]; simpl.
  - reflexivity.
  - now rewrite Ascii.eqb_refl.
Qed.

Lemma strip_prefix_Some (p s r : string) :
  strip_prefix p s = Some r -> s = p ++ r.
Proof.
  revert s; induction p as [|a p IH]; intros s H; simpl in *.
  - now inversion H.
  - destruct s as [|b s]; [discriminate|].
    destruct (Ascii.eqb a b) eqn:E; [|discriminate].
    apply Ascii.eqb_eq in E; subst b.
    now rewrite (IH _ H).
Qed.

Lemma strip_prefix_None (p s : string) :
  strip_prefix p s = None -> forall r, s <> p ++ r.
Proof.
  intros H r ->. rewrite strip_prefix_app in H. discriminate.
Qed.

Lemma replace_first_unfold (p s : string) :
  replace_first p s =
  match strip_prefix p s with
  | Some rest => rest
  | None =>
      match s with
      | EmptyString => EmptyString
      | String c s' => String c (replace_first p s')
      end
  end.
Proof. destruct s; reflexivity. Qed.

Lemma replace_first_app (p s : string) : replace_first p (p ++ s) = s.
Proof. now rewrite replace_first_unfold, strip_prefix_app. Qed.

Lemma replace_first_empty (s : string) : replace_first "" s = s.
Proof. now rewrite replace_first_unfold. Qed.

Lemma replace_first_absent (p s : string) :
  occurs p s = false -> replace_first p s = s.
Proof.
  induction s as [|c s IH]; intros H; rewrite replace_first_unfold;
    simpl in H; unfold starts_with in H.
  - destruct (strip_prefix p ""); [discriminate | reflexivity].
  - destruct (strip_prefix p (String c s)); [discriminate|].
    now rewrite IH.
Qed.

Lemma replace_first_at_first_occurrence (p s before rest : string) :
  PathTranslator.first_occurrence p s before rest ->
  replace_first p s = before ++ rest.
Proof.
  revert s; induction before as [|c b IH]; intros s [Hs Hmin].
  - subst s. simpl. apply replace_first_app.
  - rewrite replace_first_unfold.
    destruct (strip_prefix p s) as [r|] eqn:E.
    + apply strip_prefix_Some in E.
      specialize (Hmin "" r E). simpl in Hmin. lia.
    + subst s. simpl. f_equal. apply IH. split; [reflexivity|].
      intros b' r' Hb'.
      specialize (Hmin (String c b') r'). simpl in Hmin.
      rewrite Hb' in Hmin. specialize (Hmin eq_refl). lia.
Qed.

Lemma replace_first_no_occurrence (p s : string) :
  PathTranslator.no_occurrence p s -> replace_first p s = s.
Proof.
  induction s as [|c s IH]; intros H; rewrite replace_first_unfold.
  - destruct (strip_prefix p "") as [r|] eqn:E; [|reflexivity].
    apply strip_prefix_Some in E. now destruct (H "" r).
  - destruct (strip_prefix p (String c s)) as [r|] eqn:E.
    + apply strip_prefix_Some in E. now destruct (H "" r).
    + f_equal. apply IH. intros b r ->.
      now apply (H (String c b) r).
Qed.

Lemma occurs_app (p before rest : string) :
  occurs p (before ++ p ++ rest) = true.
Proof.
  induction before as [|c b IH]; simpl.
  - destruct (p ++ rest) eqn:E; simpl; unfold starts_with;
      rewrite <- E, strip_prefix_app; reflexivity.
  - rewrite IH. now destruct (starts_with p _).
Qed.

Lemma absent_no_occurrence (p s : string) :
  occurs p s = false -> PathTranslator.no_occurrence p s.
Proof.
  intros H before rest ->. rewrite occurs_app in H. discriminate.
Qed.

(** ** Path round trip *)

(** C4. For every prefix and every path [P]: making [P] absolute and then
    relative gives [P] back; making [P] relative and then absolute gives
    [P] back when [P] starts with the prefix. [_absoluteToRelative] drops
    the first occurrence of the prefix (and leaves a path without an
    occurrence as it is); [_relativeToAbsolute] prepends the prefix to any
    path. *)
Theorem path_round_trip (prefix P : string) :
  PathTranslator._absoluteToRelative prefix
    (PathTranslator._relativeToAbsolute prefix P) = P
  /\ (starts_with prefix P = true ->
      PathTranslator._relativeToAbsolute prefix
        (PathTranslator._absoluteToRelative prefix P) = P)
  /\ (forall before rest,
        PathTranslator.first_occurrence prefix P before rest ->
        PathTranslator._absoluteToRelative prefix P = before ++ rest)
  /\ (PathTranslator.no_occurrence prefix P ->
      PathTranslator._absoluteToRelative prefix P = P)
  /\ PathTranslator._relativeToAbsolute prefix P = prefix ++ P.
Proof.
  unfold PathTranslator._absoluteToRelative, PathTranslator._relativeToAbsolute.
  repeat split.
  - apply replace_first_app.
  - unfold starts_with. intros H.
    destruct (strip_prefix prefix P) as [r|] eqn:E; [|discriminate].
    apply strip_prefix_Some in E. subst P.
    now rewrite replace_first_app.
  - intros before rest. apply replace_first_at_first_occurrence.
  - apply replace_first_no_occurrence.
Qed.

Lemma path_round_trip_witness :
  starts_with "/home/src/" "/home/src/lib/a.js" = true
  /\ PathTranslator._relativeToAbsolute "/home/src/"
       (PathTranslator._absoluteToRelative "/home/src/" "/home/src/lib/a.js")
     = "/home/src/lib/a.js"
  /\ PathTranslator._absoluteToRelative "/home/src/" "lib/a.js" = "lib/a.js".
Proof.
  split; [reflexivity|]. split.
  - apply (proj1 (proj2 (path_round_trip "/home/src/" "/home/src/lib/a.js"))).
    reflexivity.
  - apply (proj1 (proj2 (proj2 (proj2 (path_round_trip "/home/src/" "lib/a.js"))))).
    apply absent_no_occurrence. reflexivity.
Defined.

(** ** Severity policy *)

(** C3. With Information < Warning < RecoverableError < FatalError, for a
    threshold [T] and a severity [S] the server stops exactly when [S] is
    at or above [T]; and a severity that stops under [T] stops under every
    threshold [T'] at or below [T]. *)
Theorem shouldStopForSeverity_threshold (T S : Severity.Severity) :
  (exists b, shouldStopForSeverity (Severity.name T) (Severity.name S) = inr b
             /\ (b = true <-> Severity.at_or_above S T))
  /\ forall T',
       Severity.rank T' <= Severity.rank T ->
       shouldStopForSeverity (Severity.name T) (Severity.name S) = inr true ->
       shouldStopForSeverity (Severity.name T') (Severity.name S) = inr true.
Proof.
  split.
  - exists (Nat.leb (Severity.rank T) (Severity.rank S)). split.
    + destruct T, S; reflexivity.
    + unfold Severity.at_or_above. apply Nat.leb_le.
  - intros T' Hle Hstop.
    destruct T, T', S; simpl in Hle; try lia;
      try reflexivity; try (cbv in Hstop; discriminate).
Qed.

Lemma shouldStopForSeverity_threshold_witness :
  Severity.rank Severity.Warning <= Severity.rank Severity.RecoverableError
  /\ shouldStopForSeverity "Warning" "FatalError" = inr true.
Proof.
  split; [simpl; lia|].
  apply (proj2 (shouldStopForSeverity_threshold
                  Severity.RecoverableError Severity.FatalError)
           Severity.Warning).
  - simpl; lia.
  - reflexivity.
Defined.

(** ** Scope names *)

(** C7. The name of a scope by the kind of its record: ["Global"] for the
    global record; ["Local: "] and the original name of the function for a
    function record, with ["anonymous function"] in place of a missing (or
    empty) name; ["Block"] for any other declarative record; ["With"] for
    an object record; a name is found for each of these four kinds, and any
    other record fails the invariant. *)
Theorem getScopeName_by_kind :
  _getScopeName GlobalEnvironmentRecord = inr "Global"
  /\ (forall f n,
        __originalName f = Some n -> truthy_string n = true ->
        _getScopeName (FunctionEnvironmentRecord f) = inr ("Local: " ++ n))
  /\ (forall f,
        truthy (__originalName f) = false ->
        _getScopeName (FunctionEnvironmentRecord f)
        = inr "Local: anonymous function")
  /\ _getScopeName DeclarativeEnvironmentRecord = inr "Block"
  /\ _getScopeName ObjectEnvironmentRecord = inr "With"
  /\ (forall envRec,
        known_kind envRec = true -> exists n, _getScopeName envRec = inr n)
  /\ (forall envRec,
        known_kind envRec = false ->
        _getScopeName envRec
        = inl (InvariantViolation "Invalid type of environment record")).
Proof.
  repeat split; try reflexivity.
  - intros [o] n H Hn. simpl in H. subst o.
    unfold _getScopeName. simpl. now rewrite Hn.
  - intros [[n|]] H; simpl in H; unfold _getScopeName; simpl;
      [now rewrite H | reflexivity].
  - intros [| f | | |] H; try discriminate; eexists; reflexivity.
  - intros [| f | | |] H; try discriminate; reflexivity.
Qed.

Lemma getScopeName_by_kind_witness :
  _getScopeName (FunctionEnvironmentRecord {| __originalName := Some "main" |})
  = inr "Local: main"
  /\ _getScopeName (FunctionEnvironmentRecord {| __originalName := None |})
     = inr "Local: anonymous function"
  /\ (exists n, _getScopeName ObjectEnvironmentRecord = inr n)
  /\ _getScopeName BareEnvironmentRecord
     = inl (InvariantViolation "Invalid type of environment record").
Proof.
  destruct getScopeName_by_kind as (_ & Hnamed & Hanon & _ & _ & Hknown & Hother).
  split; [|split; [|split]].
  - apply (Hnamed {| __originalName := Some "main" |} "main"); reflexivity.
  - apply (Hanon {| __originalName := None |}); reflexivity.
  - apply (Hknown ObjectEnvironmentRecord); reflexivity.
  - apply (Hother BareEnvironmentRecord); reflexivity.
Defined.

Section ServerProperties.

Context {C : Collaborators}.
Variable DebugMessage : DebugMessageTable.

(** ** What a request leaves alone *)

Lemma quiet_refl s : quiet s s.
Proof. repeat split. Qed.

Lemma quiet_trans s1 s2 s3 : quiet s1 s2 -> quiet s2 s3 -> quiet s1 s3.
Proof.
  unfold quiet. intros (a1 & a2 & a3 & a4 & a5) (b1 & b2 & b3 & b4 & b5).
  repeat split; congruence.
Qed.

Lemma steady_refl s : steady s s.
Proof. split; [apply quiet_refl | reflexivity]. Qed.

Lemma steady_trans s1 s2 s3 : steady s1 s2 -> steady s2 s3 -> steady s1 s3.
Proof.
  intros [q1 p1] [q2 p2]. split; [eapply quiet_trans; eauto | congruence].
Qed.

Lemma keeps_ret {A} (a : A) : keeps (ret a).
Proof. intros s. apply steady_refl. Qed.

Lemma keeps_throw {A} (e : Error) : keeps (@throw _ A e).
Proof. intros s. apply steady_refl. Qed.

Lemma keeps_get : keeps get.
Proof. intros s. apply steady_refl. Qed.

Lemma keeps_bind {A B} (m : M A) (k : A -> M B) :
  keeps m -> (forall a, keeps (k a)) -> keeps (bind m k).
Proof.
  intros Hm Hk s. unfold bind. specialize (Hm s).
  destruct (m s) as [a s'|e s'|s']; simpl in *; auto.
  eapply steady_trans; [exact Hm | apply Hk].
Qed.

Lemma keeps_invariant (b : bool) (msg : string) : keeps (invariant b msg).
Proof. destruct b; [apply keeps_ret | apply keeps_throw]. Qed.

Lemma keeps_lift {A} (r : Error + A) : keeps (lift r).
Proof. destruct r; [apply keeps_throw | apply keeps_ret]. Qed.

Lemma keeps_send (m : Message) : is_stopped m = false -> keeps (send m).
Proof.
  intros H s. unfold send, modify, steady, quiet, stopped_sent. simpl.
  rewrite filter_app. simpl. rewrite H, app_nil_r. repeat split.
Qed.

Lemma keeps_modify (f : DebugServer -> DebugServer) :
  (forall s, steady s (f s)) -> keeps (modify f).
Proof. intros H s. apply H. Qed.

Lemma steady_note s c : steady s (note s c).
Proof. repeat split. Qed.

Lemma steady_set_variableManager s v : steady s (set_variableManager s v).
Proof. repeat split. Qed.

Lemma steady_set_breakpointManager s b : steady s (set_breakpointManager s b).
Proof. repeat split. Qed.

Lemma steady_set_stepManager s m : steady s (set_stepManager s m).
Proof. repeat split. Qed.

Lemma steady_set_stopEventManager s m : steady s (set_stopEventManager s m).
Proof. repeat split. Qed.

Lemma keeps_call_getReferenceForValue env :
  keeps (call_getReferenceForValue env).
Proof.
  intros s. unfold call_getReferenceForValue.
  destruct (getReferenceForValue _ _). repeat split.
Qed.

Lemma keeps_scopes_loop env : forall scopes, keeps (scopes_loop env scopes).
Proof.
  induction env as [r | r p IH]; intros scopes; simpl;
    (apply keeps_bind; [apply keeps_lift | intros n]);
    (apply keeps_bind; [apply keeps_call_getReferenceForValue | intros ref]).
  - apply keeps_ret.
  - apply IH.
Qed.

Lemma keeps_processScopesCommand requestID frameId :
  keeps (processScopesCommand requestID frameId).
Proof.
  unfold processScopesCommand.
  apply keeps_bind; [apply keeps_get | intros s0].
  destruct (_ || _); [apply keeps_throw|].
  destruct (element _ _) as [context|]; [|apply keeps_throw].
  apply keeps_bind.
  - destruct (lexicalEnvironment context);
      [apply keeps_scopes_loop | apply keeps_ret].
  - intros scopes. now apply keeps_send.
Qed.

Lemma keeps_processStackframesCommand requestID args astLoc :
  keeps (processStackframesCommand requestID args astLoc).
Proof.
  unfold processStackframesCommand.
  apply keeps_bind; [apply keeps_get | intros s0]. now apply keeps_send.
Qed.

Lemma keeps_processVariablesCommand requestID ref :
  keeps (processVariablesCommand requestID ref).
Proof.
  unfold processVariablesCommand. apply keeps_bind.
  - intros s. destruct (getVariablesByReference _ _ _). repeat split.
  - intros v. now apply keeps_send.
Qed.

Lemma keeps_processEvaluateCommand requestID frameId expression :
  keeps (processEvaluateCommand requestID frameId expression).
Proof.
  unfold processEvaluateCommand. apply keeps_bind.
  - intros s. destruct (evaluate _ _ _ _). repeat split.
  - intros v. now apply keeps_send.
Qed.

Lemma keeps_onDebuggeeResume : keeps _onDebuggeeResume.
Proof. apply keeps_modify. intros s. repeat split. Qed.

Lemma keeps_breakpoint_command method c acknowledge requestID args :
  keeps (breakpoint_command method c acknowledge requestID args).
Proof.
  unfold breakpoint_command.
  apply keeps_bind; [apply keeps_invariant | intros _].
  apply keeps_bind; [apply keeps_modify; intros s; repeat split | intros _].
  apply keeps_bind; [now apply keeps_send | intros _]. apply keeps_ret.
Qed.

Lemma keeps_step_command direction loc : keeps (step_command direction loc).
Proof.
  unfold step_command. destruct loc as [l|]; [|apply keeps_throw].
  apply keeps_bind; [apply keeps_modify; intros s; repeat split | intros _].
  apply keeps_bind; [apply keeps_onDebuggeeResume | intros _]. apply keeps_ret.
Qed.

Lemma keeps_dispatch requestID command args loc :
  keeps (dispatch DebugMessage requestID command args loc).
Proof.
  unfold dispatch.
  repeat match goal with
         | |- keeps (if ?b then _ else _) => destruct b
         end;
    try apply keeps_breakpoint_command;
    try apply keeps_step_command;
    try apply keeps_throw.
  - apply keeps_bind; [apply keeps_invariant | intros _].
    apply keeps_bind; [apply keeps_onDebuggeeResume | intros _].
    apply keeps_ret.
  - apply keeps_bind; [apply keeps_invariant | intros _].
    apply keeps_bind; [apply keeps_processStackframesCommand | intros _].
    apply keeps_ret.
  - destruct args; try apply keeps_throw.
    apply keeps_bind; [apply keeps_processScopesCommand | intros _].
    apply keeps_ret.
  - destruct args; try apply keeps_throw.
    apply keeps_bind; [apply keeps_processVariablesCommand | intros _].
    apply keeps_ret.
  - destruct args; try apply keeps_throw.
    apply keeps_bind; [apply keeps_processEvaluateCommand | intros _].
    apply keeps_ret.
Qed.

(** A request is processed without a read and without a stopped
    notification; the marker and the call stack stay as they are. *)
Lemma processDebuggerCommand_steady request loc s :
  steady s (final (snd (processDebuggerCommand DebugMessage request loc s))).
Proof. unfold processDebuggerCommand. simpl. apply keeps_dispatch. Qed.

(** The loop of [waitForRun] goes on with the requests that are left in the
    channel: a request is processed without a read. *)
Lemma processDebuggerCommand_pending request loc s :
  pending (_channel (final (snd (processDebuggerCommand DebugMessage request loc s))))
  = pending (_channel s).
Proof. apply processDebuggerCommand_steady. Qed.

(** The location object after a request. *)
Lemma processDebuggerCommand_location request loc s :
  fst (processDebuggerCommand DebugMessage request loc s)
  = relativize_loc (_sourcemapPrefix s) loc.
Proof. reflexivity. Qed.

Lemma waitForRun_loop_cons request rest loc s :
  waitForRun_loop DebugMessage (request :: rest) loc s =
  match processDebuggerCommand DebugMessage request loc
          (set_channel s {| pending := rest; sent := sent (_channel s) |})
  with
  | (loc', Returned true s2) => (loc', Returned tt s2)
  | (loc', Returned false s2) => waitForRun_loop DebugMessage rest loc' s2
  | (loc', Thrown e s2) => (loc', Thrown e s2)
  | (loc', Waiting s2) => (loc', Waiting s2)
  end.
Proof. reflexivity. Qed.

Lemma waitForRun_loop_quiet requests :
  forall loc s,
    quiet s (final (snd (waitForRun_loop DebugMessage requests loc s))).
Proof.
  induction requests as [|request rest IH]; intros loc s.
  - apply quiet_refl.
  - rewrite waitForRun_loop_cons.
    set (s1 := set_channel s _).
    assert (Q1 : quiet s s1) by (repeat split).
    pose proof (processDebuggerCommand_steady request loc s1) as [Q2 _].
    destruct (processDebuggerCommand DebugMessage request loc s1)
      as [loc' [keepRunning s2|e s2|s2]]; simpl in Q2;
      try (eapply quiet_trans; [exact Q1 | exact Q2]).
    destruct keepRunning.
    + eapply quiet_trans; [exact Q1 | exact Q2].
    + eapply quiet_trans; [eapply quiet_trans; [exact Q1 | exact Q2] | apply IH].
Qed.

Lemma waitForRun_quiet loc s :
  quiet s (final (snd (waitForRun DebugMessage loc s))).
Proof. apply waitForRun_loop_quiet. Qed.

(** ** The last-executed marker *)

Lemma position_of_Some contextStack ast k :
  position_of contextStack ast = Some k ->
  exists l src,
    loc ast = Some l /\ source l = Some src /\ truthy_string src = true
    /\ k = {| filePath := src; sd_line := line (start l);
              sd_column := column (start l);
              stackSize := List.length contextStack |}.
Proof.
  unfold position_of. intros H.
  destruct (loc ast) as [l|]; [|discriminate].
  destruct (source l) as [src|] eqn:Es; [|discriminate].
  destruct (truthy_string src) eqn:Et; [|discriminate].
  inversion H. exists l, src. repeat split; auto.
Qed.

Lemma located_position contextStack ast :
  located ast = true <-> exists k, position_of contextStack ast = Some k.
Proof.
  unfold located, position_of, truthy.
  destruct (loc ast) as [l|].
  - destruct (source l) as [src|].
    + destruct (truthy_string src); split; intros H;
        try reflexivity; try discriminate; eauto.
      destruct H as [k H]; discriminate.
    + split; [discriminate | intros [k H]; discriminate].
  - split; [discriminate | intros [k H]; discriminate].
Qed.

(** A checkpoint at the marked position: [false], nothing written. *)
Lemma checkAndUpdateLastExecuted_same ast s k :
  position_of (_realm s) ast = Some k ->
  _lastExecuted s = Some k ->
  _checkAndUpdateLastExecuted ast s = Returned false s.
Proof.
  intros Hpos Hlast.
  destruct (position_of_Some _ _ _ Hpos) as (l & src & Hl & Hs & Ht & Hk).
  unfold _checkAndUpdateLastExecuted. rewrite Hl, Hs, Ht.
  unfold bind, get. rewrite Hlast, Hk. simpl.
  now rewrite String.eqb_refl, !Z.eqb_refl, Nat.eqb_refl.
Qed.

(** A checkpoint elsewhere: [true], the marker is the new position. *)
Lemma checkAndUpdateLastExecuted_new ast s k :
  position_of (_realm s) ast = Some k ->
  _lastExecuted s <> Some k ->
  _checkAndUpdateLastExecuted ast s
  = Returned true (set_lastExecuted s (Some k)).
Proof.
  intros Hpos Hlast.
  destruct (position_of_Some _ _ _ Hpos) as (l & src & Hl & Hs & Ht & Hk).
  unfold _checkAndUpdateLastExecuted. rewrite Hl, Hs, Ht.
  unfold bind, get.
  destruct (_lastExecuted s) as [last|] eqn:El.
  - destruct (String.eqb src (filePath last)
              && Z.eqb (line (start l)) (sd_line last)
              && Z.eqb (column (start l)) (sd_column last)
              && Nat.eqb (List.length (_realm s)) (stackSize last)) eqn:E.
    + exfalso. apply Hlast.
      apply andb_true_iff in E as [E E4].
      apply andb_true_iff in E as [E E3].
      apply andb_true_iff in E as [E1 E2].
      apply String.eqb_eq in E1. apply Z.eqb_eq in E2, E3.
      apply Nat.eqb_eq in E4.
      destruct last; simpl in *; subst. reflexivity.
    + unfold modify, ret. simpl. now rewrite Hk.
  - unfold modify, ret. simpl. now rewrite Hk.
Qed.

(** The collaborators always answer, and leave the channel, the marker,
    the call stack and the prefix as they are. *)
Lemma stop_reason_returns ast s :
  exists reason s2,
    stop_reason ast s = Returned reason s2
    /\ _channel s2 = _channel s
    /\ _lastExecuted s2 = _lastExecuted s
    /\ _realm s2 = _realm s
    /\ _sourcemapPrefix s2 = _sourcemapPrefix s
    /\ consulted s2 =
       (consulted s ++ [Call_getAndDeleteCompletedSteppers;
                        Call_getStoppableBreakpoint;
                        Call_getDebuggeeStopReason])%list.
Proof.
  unfold stop_reason, bind, call_getAndDeleteCompletedSteppers,
    call_getStoppableBreakpoint, call_getDebuggeeStopReason.
  destruct (getAndDeleteCompletedSteppers _ _ _) as [stoppables sm].
  destruct (getStoppableBreakpoint _ _) as [breakpoint bm].
  destruct (getDebuggeeStopReason _ _ _) as [reason sem].
  eexists; eexists. split; [reflexivity|]. simpl.
  repeat split. now rewrite <- !app_assoc.
Qed.

(** ** The checkpoint hook *)

Lemma stopped_sent_snoc s c m :
  is_stopped m = true ->
  stopped_sent
    (set_channel s {| pending := pending c; sent := (sent c ++ [m])%list |})
  = (filter is_stopped (sent c) ++ [m])%list.
Proof.
  intros H. unfold stopped_sent. simpl. rewrite filter_app. simpl.
  now rewrite H.
Qed.

(** The hook at a position that is not the marked one. *)
Lemma checkForActions_new ast s k :
  position_of (_realm s) ast = Some k ->
  _lastExecuted s <> Some k ->
  exists reason s2,
    stop_reason ast (set_lastExecuted s (Some k)) = Returned reason s2
    /\ _channel s2 = _channel s
    /\ _lastExecuted s2 = Some k
    /\ (truthy reason = false ->
        checkForActions DebugMessage ast s = (ast, Returned tt s2))
    /\ (forall r,
          reason = Some r -> truthy_string r = true ->
          let s3 :=
            set_channel s2
              {| pending := pending (_channel s);
                 sent := (sent (_channel s) ++ [stopped_at s k r])%list |} in
          checkForActions DebugMessage ast s
          = (let (loc', o) := waitForRun DebugMessage (loc ast) s3 in
             ({| type := type ast; loc := loc' |}, o))
          /\ stopped_sent (final (snd (checkForActions DebugMessage ast s)))
             = (stopped_sent s ++ [stopped_at s k r])%list
          /\ _lastExecuted (final (snd (checkForActions DebugMessage ast s)))
             = Some k).
Proof.
  intros Hpos Hnew.
  destruct (stop_reason_returns ast (set_lastExecuted s (Some k)))
    as (reason & s2 & Hr & Hch & Hlast & Hrealm & Hprefix & _).
  exists reason, s2. simpl in Hlast, Hprefix.
  split; [exact Hr|]. split; [exact Hch|]. split; [exact Hlast|].
  destruct (position_of_Some _ _ _ Hpos) as (l & src & Hl & Hs & Ht & Hk).
  split.
  - intros Hf. unfold checkForActions.
    rewrite (checkAndUpdateLastExecuted_new _ _ _ Hpos Hnew), Hr.
    now rewrite Hf.
  - intros r -> Hrt s3.
    assert (E : checkForActions DebugMessage ast s
                = (let (loc', o) := waitForRun DebugMessage (loc ast) s3 in
                   ({| type := type ast; loc := loc' |}, o))).
    { unfold checkForActions.
      rewrite (checkAndUpdateLastExecuted_new _ _ _ Hpos Hnew), Hr.
      simpl truthy. rewrite Hrt. simpl or_else. rewrite Hrt.
      unfold report_stop. rewrite Hl, Hs, Ht.
      cbv [invariant bind ret _relativeToAbsolute get send modify].
      rewrite Hprefix, Hch.
      replace (StoppedResponse r _ _ _) with (stopped_at s k r)
        by (rewrite Hk; reflexivity).
      reflexivity. }
    split; [exact E|].
    rewrite E.
    pose proof (waitForRun_quiet (loc ast) s3) as (Q1 & _ & _ & _ & Q5).
    destruct (waitForRun DebugMessage (loc ast) s3) as [loc' o].
    simpl in *. split.
    + rewrite Q5. unfold s3.
      now rewrite (stopped_sent_snoc s2 (_channel s)).
    + rewrite Q1. exact Hlast.
Qed.

(** C1. At a checkpoint on a located node whose position is not the
    marked one, the step manager is asked for the completed steppers, the
    breakpoint registry for a breakpoint at the node, and the arbiter for a
    reason among them. When the arbiter returns a reason, one stopped
    notification is sent, with that reason, the absolute path of the
    source, the line and the column, and the command loop is then entered
    with the node's location; when it returns none, nothing is sent,
    nothing is read and the call returns. *)
Theorem checkForActions_stops ast s k
    (Hposition : position_of (_realm s) ast = Some k)
    (Hnew : _lastExecuted s <> Some k) :
  let steppers :=
    getAndDeleteCompletedSteppers (_stepManager s) (_realm s) ast in
  let breakpoint := getStoppableBreakpoint (_breakpointManager s) ast in
  let stoppables :=
    match fst breakpoint with
    | Some b => (fst steppers ++ [b])%list
    | None => fst steppers
    end in
  let answer := getDebuggeeStopReason (_stopEventManager s) ast stoppables in
  let reason := fst answer in
  let s2 :=
    note (set_stopEventManager
            (note (set_breakpointManager
                     (note (set_stepManager (set_lastExecuted s (Some k))
                              (snd steppers))
                           Call_getAndDeleteCompletedSteppers)
                     (snd breakpoint))
                  Call_getStoppableBreakpoint)
            (snd answer))
         Call_getDebuggeeStopReason in
  _channel s2 = _channel s
  /\ (truthy reason = false ->
      checkForActions DebugMessage ast s = (ast, Returned tt s2))
  /\ (forall r,
        reason = Some r -> truthy_string r = true ->
        let s3 :=
          set_channel s2
            {| pending := pending (_channel s);
               sent := (sent (_channel s) ++ [stopped_at s k r])%list |} in
        checkForActions DebugMessage ast s
        = (let (loc', o) := waitForRun DebugMessage (loc ast) s3 in
           ({| type := type ast; loc := loc' |}, o))
        /\ stopped_sent (final (snd (checkForActions DebugMessage ast s)))
           = (stopped_sent s ++ [stopped_at s k r])%list).
Proof.
  intros steppers breakpoint stoppables answer reason s2.
  assert (Hasked : stop_reason ast (set_lastExecuted s (Some k))
                   = Returned reason s2).
  { unfold stop_reason, bind, call_getAndDeleteCompletedSteppers,
      call_getStoppableBreakpoint, call_getDebuggeeStopReason,
      s2, reason, answer, stoppables, breakpoint, steppers.
    cbn [_stepManager _realm _breakpointManager _stopEventManager
         set_lastExecuted set_stepManager set_breakpointManager note].
    destruct (getAndDeleteCompletedSteppers _ _ _) as [found sm].
    destruct (getStoppableBreakpoint _ _) as [hit bm].
    cbn [fst snd].
    destruct (getDebuggeeStopReason _ _ _) as [given sem].
    reflexivity. }
  destruct (checkForActions_new ast s k Hposition Hnew)
    as (reason' & s2' & H1 & H2 & _ & H4 & H5).
  rewrite Hasked in H1. inversion H1; subst reason' s2'.
  split; [exact H2|]. split; [exact H4|].
  intros r Hr Ht. split; now apply H5.
Qed.

(** C10. At a checkpoint on a node without a location, or whose location
    has no source, the hook does nothing: the server, with its marker,
    its channel, its collaborators and the history of the calls made to
    them, is as before, and the call returns. *)
Theorem checkForActions_unlocated ast s :
  located ast = false ->
  checkForActions DebugMessage ast s = (ast, Returned tt s).
Proof.
  unfold located, truthy, checkForActions, _checkAndUpdateLastExecuted.
  intros H.
  destruct (loc ast) as [l|]; [|reflexivity].
  destruct (source l) as [src|]; [|reflexivity].
  now rewrite H.
Qed.

Lemma SourceData_eq_dec (a b : SourceData) : {a = b} + {a <> b}.
Proof.
  decide equality;
    auto using string_dec, Z.eq_dec, Nat.eq_dec.
Qed.

Lemma marker_dec (m : option SourceData) k : {m = Some k} + {m <> Some k}.
Proof.
  destruct m as [a|]; [|right; discriminate].
  destruct (SourceData_eq_dec a k); [left | right]; congruence.
Qed.

(** The hook at the marked position does nothing. *)
Lemma checkForActions_same ast s k :
  position_of (_realm s) ast = Some k ->
  _lastExecuted s = Some k ->
  checkForActions DebugMessage ast s = (ast, Returned tt s).
Proof.
  intros Hpos Hlast. unfold checkForActions.
  now rewrite (checkAndUpdateLastExecuted_same _ _ _ Hpos Hlast).
Qed.

(** After the hook the marker is the position of the node. *)
Lemma checkForActions_marks ast s k :
  position_of (_realm s) ast = Some k ->
  _lastExecuted (final (snd (checkForActions DebugMessage ast s))) = Some k
  /\ List.length
       (stopped_sent (final (snd (checkForActions DebugMessage ast s))))
     <= List.length (stopped_sent s) + 1.
Proof.
  intros Hpos. destruct (marker_dec (_lastExecuted s) k) as [Hsame|Hnew].
  - rewrite (checkForActions_same _ _ _ Hpos Hsame). simpl. split; [auto|lia].
  - destruct (checkForActions_new ast s k Hpos Hnew)
      as (reason & s2 & H1 & H2 & H3 & H4 & H5).
    destruct (truthy reason) eqn:Et.
    + destruct reason as [r|]; [|discriminate]. simpl in Et.
      destruct (H5 r eq_refl Et) as (_ & Hs & Hm).
      rewrite Hs, Hm, length_app. simpl. split; [auto|lia].
    + rewrite (H4 eq_refl). simpl. split; [auto|].
      unfold stopped_sent. rewrite H2. lia.
Qed.

Lemma same_but_realm_refl s : same_but_realm s s.
Proof. destruct s; reflexivity. Qed.

(** Checkpoints at the marked position, whatever the call stacks of
    equal depth: all return and only the call stack differs. *)
Lemma checkpoints_same k run :
  Forall (fun c => position_of (fst c) (snd c) = Some k) run ->
  forall s,
    _lastExecuted s = Some k ->
    exists s',
      checkpoints DebugMessage run s = Returned tt s'
      /\ same_but_realm s s'.
Proof.
  induction 1 as [|[contextStack ast] run Hc Hrun IH]; intros s Hlast.
  - exists s. split; [reflexivity | apply same_but_realm_refl].
  - simpl in Hc. simpl. unfold checkpoint.
    rewrite (checkForActions_same ast (set_realm s contextStack) k Hc Hlast).
    simpl.
    destruct (IH (set_realm s contextStack) Hlast) as (s' & Hs' & Hsame).
    exists s'. split; [exact Hs'|].
    unfold same_but_realm in *. rewrite Hsame at 1. reflexivity.
Qed.

(** C2. Take a checkpoint at the position [k] (file, line, column and
    depth of the call stack). Whatever the marker was, it is [k] after
    the call, which sends one stopped notification at most; when the
    marker was [k] already the call does nothing; and when the call
    returns, any number of checkpoints that follow at position [k] all
    return, send nothing and leave every field of the server, the marker
    among them, as the first call left it (the engine's call stack of
    the same depth apart). *)
Theorem checkpoint_deduplication contextStack ast k s
    (Hposition : position_of contextStack ast = Some k) :
  let first := snd (checkpoint DebugMessage contextStack ast s) in
  _lastExecuted (final first) = Some k
  /\ List.length (stopped_sent (final first))
     <= List.length (stopped_sent s) + 1
  /\ (_lastExecuted s = Some k ->
      checkpoint DebugMessage contextStack ast s
      = (ast, Returned tt (set_realm s contextStack)))
  /\ (forall run s1,
        first = Returned tt s1 ->
        Forall (fun c => position_of (fst c) (snd c) = Some k) run ->
        exists s',
          checkpoints DebugMessage run s1 = Returned tt s'
          /\ same_but_realm s1 s'
          /\ _lastExecuted s' = Some k
          /\ sent (_channel s') = sent (_channel s1)).
Proof.
  unfold checkpoint.
  destruct (checkForActions_marks ast (set_realm s contextStack) k Hposition)
    as [Hm Hc].
  repeat split; auto.
  - intros Hlast.
    exact (checkForActions_same ast (set_realm s contextStack) k
             Hposition Hlast).
  - intros run s1 Hfirst Hrun. rewrite Hfirst in Hm. simpl in Hm.
    destruct (checkpoints_same k run Hrun s1 Hm) as (s' & Hs' & Hsame).
    exists s'. repeat split; auto; rewrite Hsame; auto.
Qed.

(** ** The command loop *)

Lemma dispatch_unrecognized requestID command args loc s :
  recognized DebugMessage command = false ->
  dispatch DebugMessage requestID command args loc s
  = Thrown (DebuggerError "Invalid command"
              ("Invalid command from adapter: " ++ command)) s.
Proof.
  unfold recognized. simpl. intros H.
  repeat (apply orb_false_iff in H; destruct H as [?E H]).
  unfold dispatch.
  repeat match goal with
         | E : String.eqb _ _ = false |- _ => rewrite E; clear E
         end.
  reflexivity.
Qed.

(** C8. When the oldest request in the channel carries a command that is
    not one of the table, [waitForRun] reads it and ends with the
    protocol error that names the command; the error is not caught in
    the loop, so the requests behind it stay unread in the channel and
    nothing is sent. *)
Theorem unrecognized_command_leaves_loop request rest loc s
    (Hpending : pending (_channel s) = request :: rest)
    (Hcommand : recognized DebugMessage (command request) = false) :
  waitForRun DebugMessage loc s
  = (relativize_loc (_sourcemapPrefix s) loc,
     Thrown (DebuggerError "Invalid command"
               ("Invalid command from adapter: " ++ command request))
       (set_channel s {| pending := rest; sent := sent (_channel s) |})).
Proof.
  unfold waitForRun. rewrite Hpending, waitForRun_loop_cons.
  unfold processDebuggerCommand.
  now rewrite (dispatch_unrecognized _ _ _ _ _ Hcommand).
Qed.

(** ** The current location *)

(** C9. A request processed at the location [l] leaves the line and the
    column of [l] as they are and writes the relative form of its source,
    the source with the first occurrence of the prefix removed, in place
    of a truthy source; so [l] is unchanged when it has no source, when
    the prefix is empty and when the prefix does not occur in the
    source. *)
Theorem processDebuggerCommand_rewrites_source request l s :
  exists l',
    fst (processDebuggerCommand DebugMessage request (Some l) s) = Some l'
    /\ start l' = start l
    /\ (forall src,
          source l = Some src -> truthy_string src = true ->
          source l'
          = Some (PathTranslator._absoluteToRelative (_sourcemapPrefix s) src))
    /\ (truthy (source l) = false -> l' = l)
    /\ (forall src,
          source l = Some src ->
          _sourcemapPrefix s = "" \/ occurs (_sourcemapPrefix s) src = false ->
          l' = l).
Proof.
  rewrite processDebuggerCommand_location. unfold relativize_loc.
  destruct l as [[src|] st]; simpl.
  - destruct (truthy_string src) eqn:Et.
    + eexists. split; [reflexivity|]. simpl. repeat split.
      * intros src' H _. now inversion H.
      * discriminate.
      * intros src' H Hp. inversion H; subst src'.
        unfold PathTranslator._absoluteToRelative.
        destruct Hp as [-> | Hp];
          [now rewrite replace_first_empty
          | now rewrite replace_first_absent].
    + eexists. split; [reflexivity|]. simpl. repeat split.
      intros src' H Ht. inversion H; subst. congruence.
  - eexists. split; [reflexivity|]. repeat split. discriminate.
Qed.

(** ** Stack frames *)

Lemma getFrameLocation_cases (l : option BabelNodeSourceLocation) :
  (forall l0 src,
     l = Some l0 -> source l0 = Some src -> truthy_string src = true ->
     _getFrameLocation l
     = {| fl_fileName := src; fl_line := line (start l0);
          fl_column := column (start l0) |})
  /\ (known_location l = false -> _getFrameLocation l = sentinel).
Proof.
  unfold _getFrameLocation, known_location, truthy. split.
  - intros l0 src -> -> ->. reflexivity.
  - destruct l as [l0|]; [|reflexivity].
    destruct (source l0) as [src|]; [|reflexivity].
    now intros ->.
Qed.

(** The loop from the index [k - 1] down: [k] frames are added to
    [frameInfos]; the [j]-th shows the engine frame [k - 1 - j], at the
    location [loc] for the first and at the location recorded on the
    engine frame just above for the others. *)
Lemma stackframes_loop_frames prefix contextStack :
  forall k loc frameInfos,
    k <= List.length contextStack ->
    exists frames,
      stackframes_loop prefix contextStack k loc frameInfos
      = (frameInfos ++ frames)%list
      /\ List.length frames = k
      /\ forall j, j < k ->
           exists frame location,
             nth_error contextStack (k - 1 - j) = Some frame
             /\ nth_error frames j
                = Some (displayed prefix location
                          (List.length contextStack - 1 - (k - 1 - j)) frame)
             /\ (j = 0 -> location = loc)
             /\ (forall j', j = S j' ->
                   exists above,
                     nth_error contextStack (k - 1 - j') = Some above
                     /\ location = _getFrameLocation (ec_loc above)).
Proof.
  induction k as [|i IH]; intros loc frameInfos Hk.
  - exists []. simpl. rewrite app_nil_r. repeat split. intros j Hj. lia.
  - cbn [stackframes_loop].
    destruct (nth_error contextStack i) as [frame|] eqn:Ef.
    2:{ apply nth_error_None in Ef. lia. }
    destruct (IH (_getFrameLocation (ec_loc frame))
                (frameInfos ++
                 [displayed prefix loc (List.length contextStack - 1 - i) frame])%list
                ltac:(lia))
      as (frames & Hloop & Hlen & Hnth).
    exists (displayed prefix loc (List.length contextStack - 1 - i) frame
              :: frames).
    split; [|split].
    + unfold displayed in *. rewrite Hloop, <- app_assoc. reflexivity.
    + simpl. now rewrite Hlen.
    + intros [|j] Hj.
      * exists frame, loc. replace (S i - 1 - 0) with i by lia.
        split; [exact Ef|]. split; [reflexivity|]. split; [reflexivity|].
        intros j' H; discriminate.
      * destruct (Hnth j ltac:(lia)) as (fr & location & H1 & H2 & H3 & H4).
        exists fr, location.
        replace (S i - 1 - S j) with (i - 1 - j) by lia.
        split; [exact H1|]. split; [exact H2|]. split; [discriminate|].
        intros j' Hj'. inversion Hj'; subst j'.
        destruct j as [|j''].
        -- exists frame. replace (S i - 1 - 0) with i by lia.
           split; [exact Ef | now apply H3].
        -- destruct (H4 j'' eq_refl) as (above & Ha & Hl).
           exists above.
           replace (S i - 1 - S j'') with (i - 1 - j'') by lia.
           now split.
Qed.

(** C5. A stack-frames request on a call stack of depth [N] is answered
    with [N] frames; the frame at position [i] has the id [i] and shows
    the engine frame [N - 1 - i], so that id [0] is the top of the stack;
    each file name is prefixed with the sourcemap prefix; frame [0] is
    shown at the current location when it is known and at the sentinel
    ("unknown", 0, 0) otherwise, and frame [i + 1] at the location
    recorded on the engine frame [N - 1 - i], or at the sentinel when none
    is recorded there. *)
Theorem stackframes_response requestID args astLoc s :
  let N := List.length (_realm s) in
  exists frames,
    processStackframesCommand requestID args astLoc s
    = Returned tt
        (set_channel s
           {| pending := pending (_channel s);
              sent := (sent (_channel s)
                         ++ [StackframeResponse requestID frames])%list |})
    /\ List.length frames = N
    /\ (forall i, i < N ->
          exists frame location,
            nth_error (_realm s) (N - 1 - i) = Some frame
            /\ nth_error frames i
               = Some (displayed (_sourcemapPrefix s) location i frame)
            /\ (i = 0 -> location = _getFrameLocation astLoc)
            /\ (forall j, i = S j ->
                  exists above,
                    nth_error (_realm s) (N - 1 - j) = Some above
                    /\ location = _getFrameLocation (ec_loc above)))
    /\ (forall l,
          (forall l0 src,
             l = Some l0 -> source l0 = Some src -> truthy_string src = true ->
             _getFrameLocation l
             = {| fl_fileName := src; fl_line := line (start l0);
                  fl_column := column (start l0) |})
          /\ (known_location l = false -> _getFrameLocation l = sentinel)).
Proof.
  intros N.
  destruct (stackframes_loop_frames (_sourcemapPrefix s) (_realm s) N
              (_getFrameLocation astLoc) [] (Nat.le_refl _))
    as (frames & Hloop & Hlen & Hnth).
  exists frames. split; [|split; [exact Hlen|split]].
  - unfold processStackframesCommand, bind, get, send, modify.
    fold N. rewrite Hloop. reflexivity.
  - intros i Hi.
    destruct (Hnth i Hi) as (frame & location & H1 & H2 & H3 & H4).
    exists frame, location.
    unfold N in *.
    replace (List.length (_realm s) - 1 - (List.length (_realm s) - 1 - i))
      with i in H2 by lia.
    repeat split; auto.
  - apply getFrameLocation_cases.
Qed.

(** ** Scopes *)

Lemma known_kind_named envRec :
  known_kind envRec = true -> exists n, _getScopeName envRec = inr n.
Proof.
  destruct envRec; try discriminate; intros _; eexists; reflexivity.
Qed.



End ServerProperties.

(** ** Selection of a command *)

Lemma index_of_nth (l : list string) :
  forall i c, NoDup l -> nth_error l i = Some c -> index_of c l = Some i.
Proof.
  induction l as [|x l IH]; intros [|i] c Hnd Hnth; simpl in *;
    try discriminate.
  - inversion Hnth; subst. now rewrite String.eqb_refl.
  - inversion Hnd as [|? ? Hx Hl]; subst.
    destruct (String.eqb c x) eqn:E.
    + apply String.eqb_eq in E. subst. exfalso. apply Hx.
      eapply nth_error_In; eauto.
    + now rewrite (IH i c Hl Hnth).
Qed.

Section DispatcherProperties.

Context {C : Collaborators}.
Variable DebugMessage : DebugMessageTable.

(** The switch takes the case of the first command of the table that is
    equal to the command of the request. *)
Lemma dispatch_by_index requestID command args loc :
  dispatch DebugMessage requestID command args loc =
  match index_of command (command_names DebugMessage) with
  | Some 0 =>
      breakpoint_command addBreakpointMulti Call_addBreakpointMulti
        (BREAKPOINT_ADD_ACKNOWLEDGE DebugMessage) requestID args
  | Some 1 =>
      breakpoint_command removeBreakpointMulti Call_removeBreakpointMulti
        (BREAKPOINT_REMOVE_ACKNOWLEDGE DebugMessage) requestID args
  | Some 2 =>
      breakpoint_command enableBreakpointMulti Call_enableBreakpointMulti
        (BREAKPOINT_ENABLE_ACKNOWLEDGE DebugMessage) requestID args
  | Some 3 =>
      breakpoint_command disableBreakpointMulti Call_disableBreakpointMulti
        (BREAKPOINT_DISABLE_ACKNOWLEDGE DebugMessage) requestID args
  | Some 4 =>
      bind (invariant (String.eqb (kind args) "run") "")
        (fun _ => bind _onDebuggeeResume (fun _ => ret true))
  | Some 5 =>
      bind (invariant (String.eqb (kind args) "stackframe") "")
        (fun _ => bind (processStackframesCommand requestID args loc)
                    (fun _ => ret false))
  | Some 6 =>
      match args with
      | ScopesArguments frameId =>
          bind (processScopesCommand requestID frameId) (fun _ => ret false)
      | _ => throw (InvariantViolation "")
      end
  | Some 7 =>
      match args with
      | VariablesArguments variablesReference =>
          bind (processVariablesCommand requestID variablesReference)
            (fun _ => ret false)
      | _ => throw (InvariantViolation "")
      end
  | Some 8 => step_command "in" loc
  | Some 9 => step_command "over" loc
  | Some 10 => step_command "out" loc
  | Some 11 =>
      match args with
      | EvaluateArguments frameId expression =>
          bind (processEvaluateCommand requestID frameId expression)
            (fun _ => ret false)
      | _ => throw (InvariantViolation "")
      end
  | _ =>
      throw (DebuggerError "Invalid command"
               ("Invalid command from adapter: " ++ command))
  end.
Proof.
  unfold dispatch, command_names. cbn [index_of].
  repeat match goal with
         | |- context [String.eqb command ?x] =>
             destruct (String.eqb command x); cbn [option_map]
         end;
    reflexivity.
Qed.

(** ** Replies *)

Lemma silent_ret {A} (a : A) : silent (ret a).
Proof. intros s. reflexivity. Qed.

Lemma silent_throw {A} e : silent (@throw _ A e).
Proof. intros s. reflexivity. Qed.

Lemma silent_get : silent get.
Proof. intros s. reflexivity. Qed.

Lemma silent_bind {A B} (m : M A) (k : A -> M B) :
  silent m -> (forall a, silent (k a)) -> silent (bind m k).
Proof.
  intros Hm Hk s. unfold bind. specialize (Hm s).
  destruct (m s) as [a s1|e s1|s1]; auto.
  specialize (Hk a s1). destruct (k a s1); congruence.
Qed.

Lemma silent_invariant b msg : silent (invariant b msg).
Proof. destruct b; [apply silent_ret | apply silent_throw]. Qed.

Lemma silent_lift {A} (r : Error + A) : silent (lift r).
Proof. destruct r; [apply silent_throw | apply silent_ret]. Qed.

Lemma silent_modify f :
  (forall s, _channel (f s) = _channel s) -> silent (modify f).
Proof. intros H s. simpl. now rewrite H. Qed.

Lemma silent_call_getReferenceForValue env :
  silent (call_getReferenceForValue env).
Proof.
  intros s. unfold call_getReferenceForValue.
  now destruct (getReferenceForValue _ _).
Qed.

Lemma silent_scopes_loop env : forall scopes, silent (scopes_loop env scopes).
Proof.
  induction env as [r | r p IH]; intros scopes; simpl;
    (apply silent_bind; [apply silent_lift | intros n]);
    (apply silent_bind; [apply silent_call_getReferenceForValue | intros ref]).
  - apply silent_ret.
  - apply IH.
Qed.

Lemma silent_onDebuggeeResume : silent _onDebuggeeResume.
Proof. apply silent_modify. reflexivity. Qed.

Lemma answers_send m : is_stopped m = false -> answers (send m).
Proof. intros H s. simpl. eauto. Qed.

Lemma answers_throw {A} e : answers (@throw _ A e).
Proof. intros s. reflexivity. Qed.

Lemma answers_bind {A B} (m : M A) (k : A -> M B) :
  silent m -> (forall a, answers (k a)) -> answers (bind m k).
Proof.
  intros Hm Hk s. unfold bind. specialize (Hm s).
  destruct (m s) as [a s1|e s1|s1]; auto.
  specialize (Hk a s1). destruct (k a s1); try rewrite <- Hm; auto.
Qed.

Lemma answers_processScopesCommand requestID frameId :
  answers (processScopesCommand requestID frameId).
Proof.
  unfold processScopesCommand.
  apply answers_bind; [apply silent_get | intros s0].
  destruct (_ || _); [apply answers_throw|].
  destruct (element _ _) as [context|]; [|apply answers_throw].
  apply answers_bind.
  - destruct (lexicalEnvironment context);
      [apply silent_scopes_loop | apply silent_ret].
  - intros scopes. now apply answers_send.
Qed.

Lemma answers_processStackframesCommand requestID args astLoc :
  answers (processStackframesCommand requestID args astLoc).
Proof.
  unfold processStackframesCommand.
  apply answers_bind; [apply silent_get | intros s0]. now apply answers_send.
Qed.

Lemma answers_processVariablesCommand requestID ref :
  answers (processVariablesCommand requestID ref).
Proof.
  unfold processVariablesCommand. apply answers_bind.
  - intros s. now destruct (getVariablesByReference _ _ _).
  - intros v. now apply answers_send.
Qed.

Lemma answers_processEvaluateCommand requestID frameId expression :
  answers (processEvaluateCommand requestID frameId expression).
Proof.
  unfold processEvaluateCommand. apply answers_bind.
  - intros s. now destruct (evaluate _ _ _ _).
  - intros v. now apply answers_send.
Qed.

Lemma replies_answer (m : M unit) s :
  answers m -> replies_once (bind m (fun _ => ret false) s) s.
Proof.
  intros H. unfold bind. specialize (H s).
  destruct (m s) as [a s1|e s1|s1]; simpl; auto.
Qed.

Lemma replies_after_silent {A} (m : M A) (k : A -> M bool) s :
  silent m ->
  (forall a s1, replies_once (k a s1) s1) ->
  replies_once (bind m k s) s.
Proof.
  intros Hm Hk. unfold bind. specialize (Hm s).
  destruct (m s) as [a s1|e s1|s1]; simpl; auto.
  specialize (Hk a s1). unfold replies_once in *.
  destruct (k a s1) as [[|] s2|e s2|s2]; try rewrite <- Hm; auto.
Qed.

Lemma replies_breakpoint_command method c acknowledge requestID args s :
  replies_once (breakpoint_command method c acknowledge requestID args s) s.
Proof.
  unfold breakpoint_command.
  apply replies_after_silent; [apply silent_invariant | intros _ s1].
  apply replies_after_silent; [now apply silent_modify | intros _ s2].
  now apply replies_answer, answers_send.
Qed.

Lemma replies_step_command direction loc s :
  replies_once (step_command direction loc s) s.
Proof.
  unfold step_command. destruct loc as [l|]; [|reflexivity].
  apply replies_after_silent; [now apply silent_modify | intros _ s1].
  apply replies_after_silent; [apply silent_onDebuggeeResume | intros _ s2].
  reflexivity.
Qed.

Lemma replies_dispatch requestID command args loc s :
  replies_once (dispatch DebugMessage requestID command args loc s) s.
Proof.
  rewrite dispatch_by_index.
  destruct (index_of command (command_names DebugMessage)) as [i|];
    [|reflexivity].
  destruct i as [|[|[|[|[|[|[|[|[|[|[|[|i]]]]]]]]]]]];
    try apply replies_breakpoint_command;
    try apply replies_step_command;
    try reflexivity.
  - apply replies_after_silent; [apply silent_invariant | intros _ s1].
    apply replies_after_silent; [apply silent_onDebuggeeResume | intros _ s2].
    reflexivity.
  - apply replies_after_silent; [apply silent_invariant | intros _ s1].
    apply replies_answer, answers_processStackframesCommand.
  - destruct args; try reflexivity.
    apply replies_answer, answers_processScopesCommand.
  - destruct args; try reflexivity.
    apply replies_answer, answers_processVariablesCommand.
  - destruct args; try reflexivity.
    apply replies_answer, answers_processEvaluateCommand.
Qed.

Lemma processDebuggerCommand_replies request loc s :
  replies_once (snd (processDebuggerCommand DebugMessage request loc s)) s
  /\ pending
       (_channel (final (snd (processDebuggerCommand DebugMessage request loc s))))
     = pending (_channel s).
Proof.
  split.
  - unfold processDebuggerCommand. simpl. apply replies_dispatch.
  - apply processDebuggerCommand_steady.
Qed.

(** X1. Whatever the request, [processDebuggerCommand] does not read from
    the channel, and it keeps to one reply: when it returns [false] (the
    server stays blocked) it has sent exactly one message, which is not a
    stopped notification; when it returns [true] (run or step) or throws,
    it has sent nothing. *)
Theorem processDebuggerCommand_replies_once request loc s :
  replies_once (snd (processDebuggerCommand DebugMessage request loc s)) s
  /\ pending
       (_channel (final (snd (processDebuggerCommand DebugMessage request loc s))))
     = pending (_channel s).
Proof. apply processDebuggerCommand_replies. Qed.

(** ** Resuming *)

Lemma index_of_Some (l : list string) :
  forall c i, index_of c l = Some i -> nth_error l i = Some c.
Proof.
  induction l as [|x l IH]; intros c i H; simpl in *; [discriminate|].
  destruct (String.eqb c x) eqn:E.
  - inversion H; subst. apply String.eqb_eq in E. now subst.
  - destruct (index_of c l) as [j|] eqn:Ej; [|discriminate].
    inversion H; subst. simpl. now apply IH.
Qed.

Lemma not_true_after {A} (m : M A) s s' :
  bind m (fun _ => ret false) s = Returned true s' -> False.
Proof. unfold bind, ret. destruct (m s); discriminate. Qed.

Lemma breakpoint_command_not_true method c acknowledge requestID args s s' :
  breakpoint_command method c acknowledge requestID args s = Returned true s'
  -> False.
Proof.
  unfold breakpoint_command, bind, invariant.
  destruct (String.eqb (kind args) "breakpoint"); simpl; discriminate.
Qed.

Lemma step_command_true direction loc s s' :
  step_command direction loc s = Returned true s' ->
  exists l,
    loc = Some l
    /\ s' = note (set_variableManager
                    (note (set_stepManager s
                             (processStepCommand (_stepManager s) (_realm s)
                                direction l))
                          Call_processStepCommand)
                    (clean (_variableManager s)))
               Call_clean.
Proof.
  unfold step_command. destruct loc as [l|]; [|discriminate].
  intros H. exists l. split; [reflexivity|].
  cbv [bind call_processStepCommand _onDebuggeeResume modify ret] in H.
  inversion H. reflexivity.
Qed.

Lemma processDebuggerCommand_resume_state request loc s s'
    (Htrue : snd (processDebuggerCommand DebugMessage request loc s)
             = Returned true s') :
  _variableManager s' = clean (_variableManager s)
  /\ _channel s' = _channel s
  /\ _breakpointManager s' = _breakpointManager s
  /\ (exists before, consulted s' = (before ++ [Call_clean])%list)
  /\ ((command request = PREPACK_RUN_COMMAND DebugMessage
       /\ kind (arguments request) = "run"
       /\ _stepManager s' = _stepManager s)
      \/ (exists direction l,
            In (command request, direction) (step_commands DebugMessage)
            /\ relativize_loc (_sourcemapPrefix s) loc = Some l
            /\ _stepManager s'
               = processStepCommand (_stepManager s) (_realm s) direction l)).
Proof.
  unfold processDebuggerCommand in Htrue. simpl in Htrue.
  rewrite dispatch_by_index in Htrue.
  destruct (index_of (command request) (command_names DebugMessage))
    as [i|] eqn:Ei; [|discriminate].
  apply index_of_Some in Ei.
  destruct i as [|[|[|[|[|[|[|[|[|[|[|[|i]]]]]]]]]]]];
    try (exfalso; eapply breakpoint_command_not_true; eassumption);
    try discriminate.
  - simpl in Ei. inversion Ei as [Ec].
    unfold bind, invariant in Htrue.
    destruct (String.eqb (kind (relativize_args _ _)) "run") eqn:Ek;
      [|discriminate].
    simpl in Htrue. inversion Htrue; subst s'. simpl.
    repeat split; eauto.
    left. repeat split.
    apply String.eqb_eq in Ek.
    destruct (arguments request); simpl in *; auto; discriminate.
  - exfalso. unfold bind at 1 in Htrue.
    destruct (invariant _ _ s); discriminate.
  - exfalso. destruct (relativize_args _ _); try discriminate.
    eapply not_true_after; eassumption.
  - exfalso. destruct (relativize_args _ _); try discriminate.
    eapply not_true_after; eassumption.
  - simpl in Ei. inversion Ei as [Ec].
    destruct (step_command_true _ _ _ _ Htrue) as (l & Hl & ->). simpl.
    repeat split; eauto.
    right. exists "in", l. simpl. auto.
  - simpl in Ei. inversion Ei as [Ec].
    destruct (step_command_true _ _ _ _ Htrue) as (l & Hl & ->). simpl.
    repeat split; eauto.
    right. exists "over", l. simpl. auto.
  - simpl in Ei. inversion Ei as [Ec].
    destruct (step_command_true _ _ _ _ Htrue) as (l & Hl & ->). simpl.
    repeat split; eauto.
    right. exists "out", l. simpl. auto.
  - exfalso. destruct (relativize_args _ _); try discriminate.
    eapply not_true_after; eassumption.
Qed.

(** X2. When [processDebuggerCommand] returns [true], the command was run
    or one of the three step commands; the variable manager has been
    cleaned, the channel and the breakpoint registry are as before, and a
    step command has registered its direction with the step manager at the
    current location, translated to relative form. *)
Theorem processDebuggerCommand_resumes request loc s s'
    (Htrue : snd (processDebuggerCommand DebugMessage request loc s)
             = Returned true s') :
  _variableManager s' = clean (_variableManager s)
  /\ _channel s' = _channel s
  /\ _breakpointManager s' = _breakpointManager s
  /\ (exists before, consulted s' = (before ++ [Call_clean])%list)
  /\ ((command request = PREPACK_RUN_COMMAND DebugMessage
       /\ kind (arguments request) = "run"
       /\ _stepManager s' = _stepManager s)
      \/ (exists direction l,
            In (command request, direction) (step_commands DebugMessage)
            /\ relativize_loc (_sourcemapPrefix s) loc = Some l
            /\ _stepManager s'
               = processStepCommand (_stepManager s) (_realm s) direction l)).
Proof. exact (processDebuggerCommand_resume_state request loc s s' Htrue). Qed.

Lemma waitForRun_loop_returns_cleaned requests :
  forall loc s loc' s',
    waitForRun_loop DebugMessage requests loc s = (loc', Returned tt s') ->
    exists vm before,
      _variableManager s' = clean vm
      /\ consulted s' = (before ++ [Call_clean])%list.
Proof.
  induction requests as [|request rest IH]; intros loc s loc' s' H.
  - discriminate.
  - rewrite waitForRun_loop_cons in H.
    destruct (processDebuggerCommand DebugMessage request loc _)
      as [loc1 [[|] s2|e s2|s2]] eqn:Ep; try discriminate.
    + inversion H; subst.
      assert (Ht : snd (processDebuggerCommand DebugMessage request loc
                          (set_channel s {| pending := rest;
                                            sent := sent (_channel s) |}))
                   = Returned true s') by (now rewrite Ep).
      destruct (processDebuggerCommand_resume_state _ _ _ _ Ht)
        as (Hvm & _ & _ & [before Hb] & _).
      eauto.
    + eapply IH; eassumption.
Qed.

(** X3. When [waitForRun] returns, the last request it read was a run or
    step command: the variable manager has just been cleaned, and that is
    the last call made to a collaborator. *)
Theorem waitForRun_returns_after_clean loc s loc' s'
    (Hreturns : waitForRun DebugMessage loc s = (loc', Returned tt s')) :
  exists vm before,
    _variableManager s' = clean vm
    /\ consulted s' = (before ++ [Call_clean])%list.
Proof. eapply waitForRun_loop_returns_cleaned. exact Hreturns. Qed.

(** ** What the loop reads and sends *)

Lemma waitForRun_loop_accounting requests :
  forall loc s,
    pending (_channel s) = requests ->
    let r := waitForRun_loop DebugMessage requests loc s in
    exists consumed,
      requests = (consumed ++ pending (_channel (final (snd r))))%list
      /\ fst r
         = Nat.iter (List.length consumed)
             (relativize_loc (_sourcemapPrefix s)) loc
      /\ (if is_waiting (snd r)
          then pending (_channel (final (snd r))) = []
               /\ List.length (sent (_channel (final (snd r))))
                  = List.length (sent (_channel s)) + List.length consumed
          else List.length (sent (_channel (final (snd r)))) + 1
               = List.length (sent (_channel s)) + List.length consumed).
Proof.
  induction requests as [|request rest IH]; intros loc s Hp.
  - exists []. simpl. rewrite Hp. repeat split; auto.
  - cbv zeta. rewrite waitForRun_loop_cons.
    set (s1 := set_channel s {| pending := rest; sent := sent (_channel s) |}).
    pose proof (processDebuggerCommand_replies request loc s1) as [Hr Hpd].
    pose proof (processDebuggerCommand_steady DebugMessage request loc s1)
      as [(_ & _ & Hprefix & _) _].
    pose proof (processDebuggerCommand_location DebugMessage request loc s1)
      as Hloc.
    destruct (processDebuggerCommand DebugMessage request loc s1)
      as [loc1 [[|] s2|e s2|s2]]; simpl in Hr, Hpd, Hprefix, Hloc;
      try contradiction.
    + exists [request]. simpl. rewrite Hpd, Hr. repeat split; auto; lia.
    + destruct (IH loc1 s2 Hpd) as (consumed & Hc & Hl & Hn).
      cbv zeta in Hc, Hl, Hn.
      exists (request :: consumed). split; [|split].
      * simpl. now rewrite <- Hc.
      * rewrite Hl, Hprefix, Hloc. simpl. now rewrite Nat.iter_swap.
      * destruct Hr as (msg & Hs & _).
        rewrite Hs, length_app in Hn. simpl in Hn |- *.
        destruct (is_waiting _); [destruct Hn; split; auto|]; lia.
    + exists [request]. simpl. rewrite Hpd, Hr. repeat split; auto; lia.
Qed.

(** X4. [waitForRun] reads the requests of the channel in order and leaves
    the others; it has sent one message for each request read, but for the
    last one when it returns or throws (a run, a step or a failed request
    gets no reply); it waits only on an emptied channel; and the location
    object has had its source made relative once for each request read. *)
Theorem waitForRun_accounting loc s :
  let r := waitForRun DebugMessage loc s in
  exists consumed,
    pending (_channel s)
    = (consumed ++ pending (_channel (final (snd r))))%list
    /\ fst r
       = Nat.iter (List.length consumed)
           (relativize_loc (_sourcemapPrefix s)) loc
    /\ (if is_waiting (snd r)
        then pending (_channel (final (snd r))) = []
             /\ List.length (sent (_channel (final (snd r))))
                = List.length (sent (_channel s)) + List.length consumed
        else List.length (sent (_channel (final (snd r)))) + 1
             = List.length (sent (_channel s)) + List.length consumed).
Proof. apply waitForRun_loop_accounting. reflexivity. Qed.

(** X5. However many requests [waitForRun] processes and however it ends,
    the last-executed marker, the call stack, the sourcemap prefix and the
    severity threshold are as before, and no stopped notification has been
    sent. *)
Theorem waitForRun_keeps_configuration loc s :
  let s' := final (snd (waitForRun DebugMessage loc s)) in
  _lastExecuted s' = _lastExecuted s
  /\ _realm s' = _realm s
  /\ _sourcemapPrefix s' = _sourcemapPrefix s
  /\ _diagnosticSeverity s' = _diagnosticSeverity s
  /\ filter is_stopped (sent (_channel s'))
     = filter is_stopped (sent (_channel s)).
Proof. exact (waitForRun_quiet DebugMessage loc s). Qed.

(** ** Commands one by one *)

Lemma kind_relativize_args prefix args :
  kind (relativize_args prefix args) = kind args.
Proof. now destruct args. Qed.

Lemma step_command_outcomes request direction s
    (Hdistinct : NoDup (command_names DebugMessage))
    (Hstep : In (command request, direction) (step_commands DebugMessage)) :
  snd (processDebuggerCommand DebugMessage request None s)
  = Thrown (InvariantViolation "") s
  /\ forall l,
      snd (processDebuggerCommand DebugMessage request (Some l) s)
      = Returned true
          (note (set_variableManager
                   (note (set_stepManager s
                            (processStepCommand (_stepManager s) (_realm s)
                               direction
                               (match relativize_loc (_sourcemapPrefix s)
                                        (Some l) with
                                | Some l' => l'
                                | None => l
                                end)))
                         Call_processStepCommand)
                   (clean (_variableManager s)))
              Call_clean).
Proof.
  unfold processDebuggerCommand. cbn [snd].
  simpl in Hstep.
  destruct Hstep as [H|[H|[H|[]]]]; inversion H as [[Hc Hd]];
    (split; [|intros l]); rewrite dispatch_by_index;
    [rewrite (index_of_nth _ 8 _ Hdistinct eq_refl)
    |rewrite (index_of_nth _ 8 _ Hdistinct eq_refl)
    |rewrite (index_of_nth _ 9 _ Hdistinct eq_refl)
    |rewrite (index_of_nth _ 9 _ Hdistinct eq_refl)
    |rewrite (index_of_nth _ 10 _ Hdistinct eq_refl)
    |rewrite (index_of_nth _ 10 _ Hdistinct eq_refl)];
    try reflexivity;
    unfold relativize_loc;
    destruct (source l) as [src|]; try reflexivity;
    destruct (truthy_string src); reflexivity.
Qed.

(** X6. With distinct command names, a step command received while no
    current location is known fails the invariant and changes nothing; at
    a known location it registers its direction with the step manager at
    the location in relative form, cleans the variable manager, sends
    nothing and lets Prepack run. The kind of its arguments is not
    looked at. *)
Theorem step_command_needs_location request direction s
    (Hdistinct : NoDup (command_names DebugMessage))
    (Hstep : In (command request, direction) (step_commands DebugMessage)) :
  snd (processDebuggerCommand DebugMessage request None s)
  = Thrown (InvariantViolation "") s
  /\ forall l,
      snd (processDebuggerCommand DebugMessage request (Some l) s)
      = Returned true
          (note (set_variableManager
                   (note (set_stepManager s
                            (processStepCommand (_stepManager s) (_realm s)
                               direction
                               (match relativize_loc (_sourcemapPrefix s)
                                        (Some l) with
                                | Some l' => l'
                                | None => l
                                end)))
                         Call_processStepCommand)
                   (clean (_variableManager s)))
              Call_clean).
Proof. exact (step_command_outcomes request direction s Hdistinct Hstep). Qed.

Lemma relative_absolute_breakpoint prefix bp :
  relative_breakpoint prefix (absolute_breakpoint prefix bp) = bp.
Proof.
  destruct bp. unfold relative_breakpoint, absolute_breakpoint,
    PathTranslator._absoluteToRelative, PathTranslator._relativeToAbsolute.
  simpl. now rewrite replace_first_app.
Qed.

(** X7. With distinct command names, a breakpoint command (add, remove,
    enable or disable) with a batch of breakpoints hands the batch to the
    matching method of the registry with every path in relative form, lines,
    columns and flags as received, sends the matching acknowledgement with
    the request id and the translated batch, and keeps the server blocked.
    A batch that names the internal paths in absolute form reaches the
    registry with the internal paths. *)
Theorem breakpoint_command_registers request method acknowledge batch loc s
    (Hdistinct : NoDup (command_names DebugMessage))
    (Hcommand : In (command request, (method, acknowledge))
                  (breakpoint_commands DebugMessage))
    (Hbatch : arguments request = BreakpointArguments batch) :
  let translated := map (relative_breakpoint (_sourcemapPrefix s)) batch in
  (exists s',
     snd (processDebuggerCommand DebugMessage request loc s) = Returned false s'
     /\ _breakpointManager s' = method (_breakpointManager s) translated
     /\ sent (_channel s')
        = (sent (_channel s)
             ++ [BreakpointsAcknowledge acknowledge (rq_id request)
                   (BreakpointArguments translated)])%list
     /\ _variableManager s' = _variableManager s
     /\ _stepManager s' = _stepManager s)
  /\ (forall internal,
        batch = map (absolute_breakpoint (_sourcemapPrefix s)) internal ->
        translated = internal).
Proof.
  intros translated. split.
  - unfold processDebuggerCommand. cbn [snd]. rewrite Hbatch.
    simpl in Hcommand.
    destruct Hcommand as [H|[H|[H|[H|[]]]]]; inversion H as [[Hc Hm Ha]];
      rewrite dispatch_by_index;
      [rewrite (index_of_nth _ 0 _ Hdistinct eq_refl)
      |rewrite (index_of_nth _ 1 _ Hdistinct eq_refl)
      |rewrite (index_of_nth _ 2 _ Hdistinct eq_refl)
      |rewrite (index_of_nth _ 3 _ Hdistinct eq_refl)];
      eexists; (split; [reflexivity|]); simpl; repeat split.
  - intros internal ->. unfold translated. rewrite map_map.
    rewrite <- (map_id internal) at 2. apply map_ext.
    intros bp. apply relative_absolute_breakpoint.
Qed.

(** X8. With distinct command names, a request whose command asks for
    arguments of one kind and carries arguments of another kind fails the
    invariant: nothing is sent and no collaborator is called. *)
Theorem kind_mismatch_fails request expected loc s
    (Hdistinct : NoDup (command_names DebugMessage))
    (Hcommand : In (command request, expected) (kind_checks DebugMessage))
    (Hkind : kind (arguments request) <> expected) :
  snd (processDebuggerCommand DebugMessage request loc s)
  = Thrown (InvariantViolation "") s.
Proof.
  unfold processDebuggerCommand. cbn [snd].
  assert (Hk : String.eqb (kind (relativize_args (_sourcemapPrefix s)
                                   (arguments request))) expected = false)
    by (rewrite kind_relativize_args; now apply String.eqb_neq).
  simpl in Hcommand.
  destruct Hcommand as [H|[H|[H|[H|[H|[H|[H|[H|[H|[]]]]]]]]]];
    inversion H as [[Hc He]]; rewrite <- He in Hk, Hkind;
    rewrite dispatch_by_index;
    [rewrite (index_of_nth _ 0 _ Hdistinct eq_refl)
    |rewrite (index_of_nth _ 1 _ Hdistinct eq_refl)
    |rewrite (index_of_nth _ 2 _ Hdistinct eq_refl)
    |rewrite (index_of_nth _ 3 _ Hdistinct eq_refl)
    |rewrite (index_of_nth _ 4 _ Hdistinct eq_refl)
    |rewrite (index_of_nth _ 5 _ Hdistinct eq_refl)
    |rewrite (index_of_nth _ 6 _ Hdistinct eq_refl)
    |rewrite (index_of_nth _ 7 _ Hdistinct eq_refl)
    |rewrite (index_of_nth _ 11 _ Hdistinct eq_refl)];
    try (unfold breakpoint_command, bind; rewrite Hk; reflexivity);
    destruct (arguments request); simpl in *; try reflexivity;
    congruence.
Qed.

End DispatcherProperties.

(** ** Paths, again *)

Lemma length_append (a b : string) :
  String.length (a ++ b) = String.length a + String.length b.
Proof. induction a as [|c a IH]; simpl; auto. Qed.

Lemma replace_first_length (p s : string) :
  occurs p s = true ->
  String.length (replace_first p s) + String.length p = String.length s.
Proof.
  induction s as [|c s IH]; intros H; rewrite replace_first_unfold;
    simpl in H; unfold starts_with in H.
  - destruct (strip_prefix p "") as [r|] eqn:E; [|discriminate].
    apply strip_prefix_Some in E.
    destruct p; simpl in E; [|discriminate]. now subst r.
  - destruct (strip_prefix p (String c s)) as [r|] eqn:E.
    + apply strip_prefix_Some in E.
      apply (f_equal String.length) in E. rewrite length_append in E. lia.
    + simpl. rewrite <- (IH H). lia.
Qed.

(** X9. [_absoluteToRelative] returns the path it was given exactly when
    the prefix is empty or does not occur in the path; in the other case
    the result is shorter than the path by the length of the prefix: one
    occurrence is removed, never more. *)
Theorem absoluteToRelative_identity (prefix path : string) :
  (PathTranslator._absoluteToRelative prefix path = path
   <-> prefix = "" \/ occurs prefix path = false)
  /\ (occurs prefix path = true ->
      String.length (PathTranslator._absoluteToRelative prefix path)
      + String.length prefix
      = String.length path).
Proof.
  unfold PathTranslator._absoluteToRelative. split; [split|].
  - intros H. destruct prefix as [|a p]; [now left|right].
    destruct (occurs (String a p) path) eqn:E; [|reflexivity].
    apply replace_first_length in E. rewrite H in E. simpl in E. lia.
  - intros [-> | H];
      [apply replace_first_empty | now apply replace_first_absent].
  - apply replace_first_length.
Qed.

Lemma absoluteToRelative_identity_witness :
  occurs "/p/" "/home/p/a.js" = true
  /\ String.length (PathTranslator._absoluteToRelative "/p/" "/home/p/a.js")
     + String.length "/p/"
     = String.length "/home/p/a.js".
Proof.
  split; [reflexivity|].
  apply (proj2 (absoluteToRelative_identity "/p/" "/home/p/a.js")).
  reflexivity.
Defined.

(** ** Severities outside the four *)

(** X10. A threshold that is none of the four severities fails the
    invariant whatever the severity. A severity that is none of the four
    stops the debugger under the thresholds Information and Warning and
    does not under RecoverableError and FatalError. *)
Theorem shouldStopForSeverity_outside (threshold severity : string) :
  ((forall T, threshold <> Severity.name T) ->
   shouldStopForSeverity threshold severity
   = inl (InvariantViolation "Unexpected severity type"))
  /\ ((forall S, severity <> Severity.name S) ->
      shouldStopForSeverity "Information" severity = inr true
      /\ shouldStopForSeverity "Warning" severity = inr true
      /\ shouldStopForSeverity "RecoverableError" severity = inr false
      /\ shouldStopForSeverity "FatalError" severity = inr false).
Proof.
  split.
  - intros H. unfold shouldStopForSeverity.
    pose proof (H Severity.Information) as H1.
    pose proof (H Severity.Warning) as H2.
    pose proof (H Severity.RecoverableError) as H3.
    pose proof (H Severity.FatalError) as H4.
    simpl in H1, H2, H3, H4.
    apply String.eqb_neq in H1, H2, H3, H4.
    now rewrite H1, H2, H3, H4.
  - intros H. unfold shouldStopForSeverity. simpl.
    pose proof (H Severity.Information) as H1.
    pose proof (H Severity.RecoverableError) as H3.
    pose proof (H Severity.FatalError) as H4.
    simpl in H1, H3, H4.
    apply String.eqb_neq in H1, H3, H4.
    rewrite H1, H3, H4. repeat split.
Qed.

Lemma shouldStopForSeverity_outside_witness :
  shouldStopForSeverity "Error" "FatalError"
  = inl (InvariantViolation "Unexpected severity type")
  /\ shouldStopForSeverity "Warning" "Note" = inr true.
Proof.
  split.
  - apply (proj1 (shouldStopForSeverity_outside "Error" "FatalError")).
    intros []; discriminate.
  - apply (proj2 (shouldStopForSeverity_outside "Warning" "Note")).
    intros []; discriminate.
Defined.

Section InspectionProperties.

Context {C : Collaborators}.
Variable DebugMessage : DebugMessageTable.

(** ** A chain with a record of no known kind *)

Lemma scopes_loop_fails lexicalEnv :
  forall scopes s good bad rest,
    environment_chain lexicalEnv = (good ++ bad :: rest)%list ->
    Forall (fun env => known_kind (environmentRecord env) = true) good ->
    known_kind (environmentRecord bad) = false ->
    exists s',
      scopes_loop lexicalEnv scopes s
      = Thrown (InvariantViolation "Invalid type of environment record") s'
      /\ _channel s' = _channel s
      /\ _variableManager s' = snd (registered (_variableManager s) good)
      /\ consulted s'
         = (consulted s
              ++ repeat Call_getReferenceForValue (List.length good))%list.
Proof.
  induction lexicalEnv as [r | r p IH];
    intros scopes s good bad rest Hchain Hgood Hbad.
  - destruct good as [|g good]; simpl in Hchain.
    + inversion Hchain; subst bad. simpl in Hbad.
      destruct r; try discriminate.
      exists s. simpl. rewrite app_nil_r. repeat split.
    + inversion Hchain as [[Hg Hrest]]. destruct good; discriminate.
  - destruct good as [|g good]; simpl in Hchain.
    + inversion Hchain; subst bad. simpl in Hbad.
      destruct r; try discriminate.
      exists s. simpl. rewrite app_nil_r. repeat split.
    + inversion Hchain as [[Hg Hrest]].
      inversion Hgood as [|? ? Hk Hgood']; subst.
      destruct (known_kind_named _ Hk) as [n Hn]. simpl in Hn.
      cbn [scopes_loop environmentRecord registered].
      unfold bind at 1. rewrite Hn. cbn [lift ret].
      unfold bind at 1, call_getReferenceForValue.
      destruct (getReferenceForValue (_variableManager s) _) as [ref vm'].
      destruct (IH (scopes ++ [{| name := n; variablesReference := ref;
                                  expensive := false |}])%list
                  (note (set_variableManager s vm') Call_getReferenceForValue)
                  good bad rest Hrest Hgood' Hbad)
        as (s' & Hloop & Hch & Hvm & Hcons).
      exists s'. split; [exact Hloop|]. simpl in Hch, Hvm, Hcons.
      destruct (registered vm' good) as [refs vm''].
      simpl in *. repeat split; auto.
      rewrite Hcons, <- app_assoc. reflexivity.
Qed.

(** X11. A scopes request in range whose frame has, behind some
    environments of known kinds, an environment whose record is of no
    known kind fails the invariant of [_getScopeName]: no response is
    sent, yet the environments met before it have been registered with the
    variable manager, one call for each. *)
Theorem scopes_request_with_unknown_record requestID frameId s context
    good bad rest
    (Hrange : (0 <= frameId < Z.of_nat (List.length (_realm s)))%Z)
    (Hcontext : nth_error (_realm s)
                  (Z.to_nat (Z.of_nat (List.length (_realm s)) - 1 - frameId))
                = Some context)
    (Hchain : chain_of (lexicalEnvironment context)
              = (good ++ bad :: rest)%list)
    (Hgood : Forall (fun env => known_kind (environmentRecord env) = true) good)
    (Hbad : known_kind (environmentRecord bad) = false) :
  exists s',
    processScopesCommand requestID frameId s
    = Thrown (InvariantViolation "Invalid type of environment record") s'
    /\ _channel s' = _channel s
    /\ _variableManager s' = snd (registered (_variableManager s) good)
    /\ consulted s'
       = (consulted s
            ++ repeat Call_getReferenceForValue (List.length good))%list.
Proof.
  unfold processScopesCommand. unfold bind at 1, get.
  cbn [below at_least integer_minus element].
  replace ((frameId <? 0)%Z || (Z.of_nat (List.length (_realm s)) <=? frameId)%Z)
    with false
    by (symmetry; apply orb_false_iff;
        split; [apply Z.ltb_ge | apply Z.leb_gt]; lia).
  replace (Z.of_nat (List.length (_realm s)) - 1 - frameId <? 0)%Z with false
    by (symmetry; apply Z.ltb_ge; lia).
  rewrite Hcontext.
  destruct (lexicalEnvironment context) as [lexicalEnv|]; simpl in Hchain.
  - destruct (scopes_loop_fails lexicalEnv [] s good bad rest Hchain Hgood Hbad)
      as (s' & Hloop & Hrest).
    exists s'. unfold bind. rewrite Hloop. split; [reflexivity | exact Hrest].
  - destruct good; discriminate.
Qed.

(** ** A checkpoint while no request is waiting *)

Lemma checkForActions_no_position ast s :
  position_of (_realm s) ast = None ->
  checkForActions DebugMessage ast s = (ast, Returned tt s).
Proof.
  unfold position_of, checkForActions, _checkAndUpdateLastExecuted.
  destruct (loc ast) as [l|]; [|reflexivity].
  destruct (source l) as [src|]; [|reflexivity].
  destruct (truthy_string src); [discriminate | reflexivity].
Qed.

Lemma waitForRun_empty loc s :
  pending (_channel s) = [] ->
  waitForRun DebugMessage loc s = (loc, Waiting s).
Proof. unfold waitForRun. now intros ->. Qed.

(** X12. At a checkpoint reached while no request waits in the channel,
    [checkForActions] never throws: the invariants of its body hold. Either
    it returns with the channel untouched, or it has sent one stopped
    notification for the position of the node and waits for the adapter. *)
Theorem checkForActions_on_empty_channel ast s
    (Hempty : pending (_channel s) = []) :
  match snd (checkForActions DebugMessage ast s) with
  | Returned _ s' => _channel s' = _channel s
  | Waiting s' =>
      exists reason k,
        position_of (_realm s) ast = Some k
        /\ _channel s'
           = {| pending := [];
                sent := (sent (_channel s) ++ [stopped_at s k reason])%list |}
  | Thrown _ _ => False
  end.
Proof.
  destruct (position_of (_realm s) ast) as [k|] eqn:Hpos.
  2:{ now rewrite (checkForActions_no_position _ _ Hpos). }
  destruct (marker_dec (_lastExecuted s) k) as [Hsame|Hnew].
  - now rewrite (checkForActions_same DebugMessage _ _ _ Hpos Hsame).
  - destruct (checkForActions_new DebugMessage ast s k Hpos Hnew)
      as (reason & s2 & _ & Hch & _ & Hnone & Hsome).
    destruct (truthy reason) eqn:Et.
    + destruct reason as [r|]; [|discriminate]. simpl in Et.
      destruct (Hsome r eq_refl Et) as (E & _). rewrite E.
      rewrite waitForRun_empty by exact Hempty. simpl.
      exists r, k. split; [reflexivity|]. now rewrite Hempty.
    + rewrite (Hnone eq_refl). exact Hch.
Qed.

(** ** The empty prefix *)

(** X13. Under the empty prefix, which is the prefix of a session without
    source maps, nothing is translated: a request leaves the current
    location and the breakpoints of its batch as they are, and a path is
    its own absolute form. *)
Theorem empty_prefix_translates_nothing request loc s
    (Hprefix : _sourcemapPrefix s = "") :
  fst (processDebuggerCommand DebugMessage request loc s) = loc
  /\ relativize_args (_sourcemapPrefix s) (arguments request)
     = arguments request
  /\ forall path,
      PathTranslator._relativeToAbsolute (_sourcemapPrefix s) path = path.
Proof.
  rewrite processDebuggerCommand_location, Hprefix. repeat split.
  - unfold relativize_loc, PathTranslator._absoluteToRelative.
    destruct loc as [[[src|] st]|]; simpl; auto.
    destruct (truthy_string src); auto. now rewrite replace_first_empty.
  - unfold relativize_args.
    destruct (arguments request) as [batch| | | | |]; auto.
    f_equal. rewrite <- (map_id batch) at 2. apply map_ext.
    intros [f l c e]. unfold PathTranslator._absoluteToRelative. simpl.
    now rewrite replace_first_empty.
Qed.

(** ** A stack-frames request at a location *)

(** X14. With distinct command names, a stack-frames request processed at
    a location with a source, on a call stack that is not empty, is
    answered with a list whose first frame has the id 0. The source is
    first made relative; when the result is not empty the frame shows the
    prefix followed by it, at the line and column of the location, which
    is the source itself when the source starts with the prefix; when the
    result is empty (the source is the prefix) the frame shows the
    sentinel under the prefix. *)
Theorem stackframes_request_top_frame request l src s
    (Hdistinct : NoDup (command_names DebugMessage))
    (Hcommand : command request = STACKFRAMES_COMMAND DebugMessage)
    (Hargs : arguments request = StackframeArguments)
    (Hsource : source l = Some src)
    (Htruthy : truthy_string src = true)
    (Hstack : _realm s <> []) :
  let prefix := _sourcemapPrefix s in
  let relative := PathTranslator._absoluteToRelative prefix src in
  exists top rest,
    snd (processDebuggerCommand DebugMessage request (Some l) s)
    = Returned false
        (set_channel s
           {| pending := pending (_channel s);
              sent := (sent (_channel s)
                         ++ [StackframeResponse (rq_id request) (top :: rest)])%list |})
    /\ id top = 0
    /\ (truthy_string relative = true ->
        fileName top = prefix ++ relative
        /\ sf_line top = line (start l)
        /\ sf_column top = column (start l))
    /\ (truthy_string relative = true -> starts_with prefix src = true ->
        fileName top = src)
    /\ (relative = "" ->
        fileName top = prefix ++ "unknown"
        /\ sf_line top = 0%Z /\ sf_column top = 0%Z).
Proof.
  intros prefix relative.
  unfold processDebuggerCommand. cbn [snd]. rewrite Hargs, Hcommand.
  rewrite dispatch_by_index, (index_of_nth _ 5 _ Hdistinct eq_refl).
  unfold relativize_loc. rewrite Hsource, Htruthy.
  fold prefix. fold relative.
  set (loc' := Some {| source := Some relative; start := start l |}).
  destruct (stackframes_loop_frames prefix (_realm s) (List.length (_realm s))
              (_getFrameLocation loc') [] (Nat.le_refl _))
    as (frames & Hloop & Hlen & Hnth).
  assert (Hpos : 0 < List.length (_realm s))
    by (destruct (_realm s); [congruence | simpl; lia]).
  destruct (Hnth 0 Hpos) as (frame & location & _ & Hshown & Hloc & _).
  specialize (Hloc eq_refl). subst location.
  destruct frames as [|top rest]; [discriminate|].
  simpl in Hshown. inversion Hshown as [Htop]. clear Hshown.
  exists top, rest. split.
  - cbv [relativize_args bind invariant kind ret processStackframesCommand
           get send modify].
    rewrite String.eqb_refl. cbv beta iota. fold prefix.
    rewrite Hloop. reflexivity.
  - rewrite Htop. unfold displayed, loc', _getFrameLocation,
      PathTranslator._relativeToAbsolute. simpl.
    split; [lia|]. split; [|split].
    + intros Ht. rewrite Ht. simpl. auto.
    + intros Ht Hs. rewrite Ht. simpl. unfold relative,
        PathTranslator._absoluteToRelative, starts_with in *.
      destruct (strip_prefix prefix src) as [r|] eqn:E; [|discriminate].
      apply strip_prefix_Some in E. rewrite E at 1.
      now rewrite replace_first_app.
    + intros ->. simpl. auto.
Qed.

(** ** Checkpoints that do not stop *)

Lemma stop_reason_is_arbiter ast s reason s2 :
  stop_reason ast s = Returned reason s2 ->
  exists sem stoppables,
    reason = fst (getDebuggeeStopReason sem ast stoppables).
Proof.
  unfold stop_reason, bind, call_getAndDeleteCompletedSteppers,
    call_getStoppableBreakpoint, call_getDebuggeeStopReason.
  destruct (getAndDeleteCompletedSteppers _ _ _) as [stoppables sm].
  destruct (getStoppableBreakpoint _ _) as [breakpoint bm].
  simpl.
  match goal with
  | |- context [getDebuggeeStopReason ?a ?b ?c] =>
      destruct (getDebuggeeStopReason a b c) as [r sem] eqn:E;
      intros H; inversion H; subst; exists a, c; now rewrite E
  end.
Qed.

Lemma checkForActions_without_reason ast s :
  (forall sem node stoppables,
     truthy (fst (getDebuggeeStopReason sem node stoppables)) = false) ->
  exists s',
    checkForActions DebugMessage ast s = (ast, Returned tt s')
    /\ _channel s' = _channel s.
Proof.
  intros Hnever.
  destruct (position_of (_realm s) ast) as [k|] eqn:Hpos.
  2:{ exists s. now rewrite (checkForActions_no_position _ _ Hpos). }
  destruct (marker_dec (_lastExecuted s) k) as [Hsame|Hnew].
  - exists s. now rewrite (checkForActions_same DebugMessage _ _ _ Hpos Hsame).
  - destruct (checkForActions_new DebugMessage ast s k Hpos Hnew)
      as (reason & s2 & Hr & Hch & _ & Hnone & _).
    destruct (stop_reason_is_arbiter _ _ _ _ Hr) as (sem & stoppables & ->).
    exists s2. split; [apply Hnone, Hnever | exact Hch].
Qed.

(** X17. When the arbiter gives no reason, whatever the candidates (as
    when no breakpoint and no step is armed), any run of checkpoints
    returns: each call comes back at once, nothing is sent and nothing is
    read from the channel. *)
Theorem checkpoints_without_reason run s
    (Hnever : forall sem node stoppables,
        truthy (fst (getDebuggeeStopReason sem node stoppables)) = false) :
  exists s',
    checkpoints DebugMessage run s = Returned tt s'
    /\ _channel s' = _channel s.
Proof.
  revert s. induction run as [|[contextStack ast] run IH]; intros s.
  - exists s. split; reflexivity.
  - simpl. unfold checkpoint.
    destruct (checkForActions_without_reason ast (set_realm s contextStack)
                Hnever) as (s1 & H1 & Hch1).
    rewrite H1. simpl.
    destruct (IH s1) as (s' & Hs' & Hch).
    exists s'. split; [exact Hs'|]. now rewrite Hch, Hch1.
Qed.

(** ** The node after a checkpoint *)

Lemma relativize_loc_start prefix l :
  option_map start (relativize_loc prefix l) = option_map start l.
Proof.
  unfold relativize_loc. destruct l as [l|]; [|reflexivity].
  destruct (source l) as [src|]; [|reflexivity].
  destruct (truthy_string src); reflexivity.
Qed.

Lemma iter_relativize_loc_start prefix n :
  forall l,
    option_map start (Nat.iter n (relativize_loc prefix) l)
    = option_map start l.
Proof.
  induction n as [|n IH]; intros l; simpl; [reflexivity|].
  now rewrite relativize_loc_start.
Qed.

(** X18. [checkForActions] hands the node back with its type and with the
    line and column of its location. The requests taken from the channel
    during the call are those read while the server was stopped, and the
    source of the location has been made relative once for each of them;
    when the call has sent no stopped notification, no request has been
    read and the node is handed back as it was. *)
Theorem checkForActions_node ast s :
  let r := checkForActions DebugMessage ast s in
  let after := final (snd r) in
  type (fst r) = type ast
  /\ option_map start (loc (fst r)) = option_map start (loc ast)
  /\ exists consumed,
       pending (_channel s) = (consumed ++ pending (_channel after))%list
       /\ loc (fst r)
          = Nat.iter (List.length consumed)
              (relativize_loc (_sourcemapPrefix s)) (loc ast)
       /\ (stopped_sent after = stopped_sent s ->
           consumed = [] /\ fst r = ast).
Proof.
  cbv zeta.
  assert (Hidle : forall s',
             checkForActions DebugMessage ast s = (ast, Returned tt s') ->
             _channel s' = _channel s ->
             type (fst (checkForActions DebugMessage ast s)) = type ast
             /\ option_map start (loc (fst (checkForActions DebugMessage ast s)))
                = option_map start (loc ast)
             /\ exists consumed,
                  pending (_channel s)
                  = (consumed
                       ++ pending
                            (_channel
                               (final (snd (checkForActions DebugMessage ast s)))))%list
                  /\ loc (fst (checkForActions DebugMessage ast s))
                     = Nat.iter (List.length consumed)
                         (relativize_loc (_sourcemapPrefix s)) (loc ast)
                  /\ (stopped_sent
                        (final (snd (checkForActions DebugMessage ast s)))
                      = stopped_sent s ->
                      consumed = []
                      /\ fst (checkForActions DebugMessage ast s) = ast)).
  { intros s' E Hch. rewrite E. simpl. rewrite Hch.
    split; [reflexivity|]. split; [reflexivity|].
    exists []. repeat split. }
  destruct (position_of (_realm s) ast) as [k|] eqn:Hpos.
  2:{ apply (Hidle s); [now apply checkForActions_no_position | reflexivity]. }
  destruct (marker_dec (_lastExecuted s) k) as [Hsame|Hnew].
  { apply (Hidle s); [now apply (checkForActions_same _ _ _ k) | reflexivity]. }
  destruct (checkForActions_new DebugMessage ast s k Hpos Hnew)
    as (reason & s2 & Hr & Hch & _ & Hnone & Hsome).
  destruct (stop_reason_returns ast (set_lastExecuted s (Some k)))
    as (reason' & s2' & Hr' & _ & _ & _ & Hprefix & _).
  rewrite Hr in Hr'. inversion Hr'; subst reason' s2'. simpl in Hprefix.
  destruct (truthy reason) eqn:Et.
  2:{ apply (Hidle s2); [now apply Hnone | exact Hch]. }
  destruct reason as [r|]; [|discriminate]. simpl in Et.
  destruct (Hsome r eq_refl Et) as (E & Hstopped & _).
  rewrite E in Hstopped |- *.
  set (s3 := set_channel s2 _) in *.
  destruct (waitForRun_loop_accounting DebugMessage
              (pending (_channel s3)) (loc ast) s3 eq_refl)
    as (consumed & Hc & Hl & _).
  unfold waitForRun in *.
  destruct (waitForRun_loop DebugMessage (pending (_channel s3))
              (loc ast) s3) as [loc' o].
  simpl in *. split; [reflexivity|].
  rewrite Hl, Hprefix. split; [apply iter_relativize_loc_start|].
  exists consumed. split; [exact Hc|]. split; [reflexivity|].
  intros Hsame. exfalso. rewrite Hstopped in Hsame.
  apply (f_equal (@List.length _)) in Hsame.
  rewrite length_app in Hsame. simpl in Hsame. lia.
Qed.

End InspectionProperties.

Section SessionStartProperties.

Context {C : Collaborators}.
Variable DebugMessage : DebugMessageTable.
Variable parse_sources : string -> option (list string).
Variable getAbsoluteSourcePath : string -> string -> string.
Variable findCommonPrefix : list string -> string.
Variable new_BreakpointManager : BreakpointManager.
Variable new_VariableManager : ContextStack -> VariableManager.
Variable new_SteppingManager : ContextStack -> bool -> SteppingManager.
Variable new_StopEventManager : StopEventManager.

Lemma collect_sourcePaths_paths maps :
  forall sourcePaths,
    collect_sourcePaths parse_sources getAbsoluteSourcePath maps sourcePaths
    = if forallb (readable parse_sources) (filter has_contents maps)
      then Some (sourcePaths
                   ++ flat_map (listed_paths parse_sources getAbsoluteSourcePath)
                        (filter has_contents maps))%list
      else None.
Proof.
  induction maps as [|m maps IH]; intros sourcePaths; simpl.
  - now rewrite app_nil_r.
  - unfold has_contents, readable, listed_paths, truthy.
    destruct (sourceMapContents m) as [contents|] eqn:Ec; [|apply IH].
    destruct (truthy_string contents); [|apply IH].
    simpl. rewrite Ec.
    destruct (parse_sources contents) as [sources|]; [|reflexivity].
    simpl. rewrite IH. unfold has_contents, readable, listed_paths, truthy.
    destruct (forallb _ _); [|reflexivity].
    now rewrite app_assoc.
Qed.

(** X15. Without source maps the prefix is empty. With source maps, the
    maps without contents (none, or the empty string) are passed over; when
    the contents of the others can all be read, the prefix is the common
    prefix of the absolute paths of the sources they list, in the order of
    the maps, and when one cannot be read no prefix is set. *)
Theorem findSourcemapPrefix_reads_maps_with_contents :
  _findSourcemapPrefix parse_sources getAbsoluteSourcePath findCommonPrefix
    None = Some ""
  /\ forall maps,
      let read := filter has_contents maps in
      (forallb (readable parse_sources) read = true ->
       _findSourcemapPrefix parse_sources getAbsoluteSourcePath findCommonPrefix
         (Some maps)
       = Some (findCommonPrefix
                 (flat_map (listed_paths parse_sources getAbsoluteSourcePath)
                    read)))
      /\ (forallb (readable parse_sources) read = false ->
          _findSourcemapPrefix parse_sources getAbsoluteSourcePath
            findCommonPrefix (Some maps) = None)
      /\ _findSourcemapPrefix parse_sources getAbsoluteSourcePath
           findCommonPrefix (Some maps)
         = _findSourcemapPrefix parse_sources getAbsoluteSourcePath
             findCommonPrefix (Some read).
Proof.
  split; [reflexivity|]. intros maps read. unfold _findSourcemapPrefix.
  rewrite !collect_sourcePaths_paths. fold read.
  assert (Hidem : filter has_contents read = read).
  { unfold read. induction maps as [|m maps IH]; simpl; auto.
    destruct (has_contents m) eqn:E; simpl; [rewrite E, IH|]; auto. }
  rewrite Hidem.
  repeat split; try (intros ->; reflexivity).
Qed.

(** X16. The constructor, once the prefix is found, waits for the adapter
    at no location. However that wait ends, the server has no last-executed
    marker, the prefix found, the threshold of the configuration or
    FatalError when it gives none, the call stack it was given, and has
    sent no stopped notification. On an empty channel the constructor
    waits; with distinct command names, a step command as the first request
    makes it fail the invariant, the request read and nothing else done. *)
Theorem constructor_waits_at_no_location channel realm configArgs prefix
    (Hprefix : _findSourcemapPrefix parse_sources getAbsoluteSourcePath
                 findCommonPrefix (sourceMaps configArgs) = Some prefix) :
  let s0 :=
    initial_server new_BreakpointManager new_VariableManager
      new_SteppingManager new_StopEventManager channel realm configArgs
      prefix in
  exists o,
    DebugServer_constructor DebugMessage parse_sources getAbsoluteSourcePath
      findCommonPrefix new_BreakpointManager new_VariableManager
      new_SteppingManager new_StopEventManager channel realm configArgs
    = Some o
    /\ _lastExecuted (final o) = None
    /\ _sourcemapPrefix (final o) = prefix
    /\ _diagnosticSeverity (final o)
       = or_else (diagnosticSeverity configArgs) "FatalError"
    /\ _realm (final o) = realm
    /\ filter is_stopped (sent (_channel (final o)))
       = filter is_stopped (sent channel)
    /\ (pending channel = [] -> o = Waiting s0)
    /\ (NoDup (command_names DebugMessage) ->
        forall request rest direction,
          pending channel = request :: rest ->
          In (command request, direction) (step_commands DebugMessage) ->
          o = Thrown (InvariantViolation "")
                (set_channel s0 {| pending := rest; sent := sent channel |})).
Proof.
  intros s0. unfold DebugServer_constructor. rewrite Hprefix. fold s0.
  eexists. split; [reflexivity|].
  pose proof (waitForRun_quiet DebugMessage None s0)
    as (H1 & H2 & H3 & H4 & H5).
  repeat split; auto.
  - intros Hp. rewrite waitForRun_empty; [reflexivity | exact Hp].
  - intros Hdistinct request rest direction Hp Hstep.
    unfold waitForRun. simpl pending at 1. rewrite Hp.
    rewrite waitForRun_loop_cons.
    pose proof (step_command_outcomes DebugMessage request direction
                  (set_channel s0 {| pending := rest;
                                     sent := sent (_channel s0) |})
                  Hdistinct Hstep) as [Hnone _].
    destruct (processDebuggerCommand DebugMessage request None _)
      as [loc1 o1]. simpl in Hnone. subst o1. reflexivity.
Qed.

End SessionStartProperties.

(** ** Sessions with the reference collaborators *)

Import Reference.

Lemma checkForActions_stops_witness :
  position_of (_realm breakpoint_session) (node "a" 10 2)
  = Some (position "a" 10 2 1)
  /\ _lastExecuted breakpoint_session <> Some (position "a" 10 2 1)
  /\ fst (getDebuggeeStopReason tt (node "a" 10 2)
            [StoppableBreakpoint
               {| bp_filePath := "a"; bp_line := 10; bp_column := 2;
                  bp_enabled := true |}])
     = Some "Breakpoint"
  /\ stopped_sent
       (final (snd (checkForActions DebugMessage (node "a" 10 2)
                      breakpoint_session)))
     = [StoppedResponse "Breakpoint" "/p/a" 10 2].
Proof.
  split; [reflexivity|]. split; [discriminate|]. split; [reflexivity|].
  pose proof (checkForActions_stops DebugMessage (node "a" 10 2)
                breakpoint_session (position "a" 10 2 1) eq_refl)
    as Hstops.
  destruct Hstops as (_ & _ & Hsome); [discriminate|].
  exact (proj2 (Hsome "Breakpoint" eq_refl eq_refl)).
Defined.

Lemma checkForActions_unlocated_witness :
  located {| type := "Program"; loc := None |} = false
  /\ checkForActions DebugMessage {| type := "Program"; loc := None |}
       breakpoint_session
     = ({| type := "Program"; loc := None |}, Returned tt breakpoint_session).
Proof.
  split; [reflexivity|].
  apply (checkForActions_unlocated DebugMessage
           {| type := "Program"; loc := None |} breakpoint_session).
  reflexivity.
Defined.

Lemma checkpoint_deduplication_witness :
  position_of [global_frame] (node "a" 10 2) = Some (position "a" 10 2 1)
  /\ _lastExecuted
       (final (snd (checkpoint DebugMessage [global_frame] (node "a" 10 2)
                      breakpoint_session)))
     = Some (position "a" 10 2 1).
Proof.
  split; [reflexivity|].
  apply (proj1 (checkpoint_deduplication DebugMessage [global_frame]
                  (node "a" 10 2) (position "a" 10 2 1) breakpoint_session
                  eq_refl)).
Defined.

Lemma unrecognized_command_leaves_loop_witness :
  recognized DebugMessage "restart" = false
  /\ waitForRun DebugMessage None
       (session "" [global_frame]
          [request 1 "restart" RunArguments;
           request 2 "stack-frames" StackframeArguments])
     = (None,
        Thrown (DebuggerError "Invalid command"
                  "Invalid command from adapter: restart")
          (session "" [global_frame]
             [request 2 "stack-frames" StackframeArguments])).
Proof.
  split; [reflexivity|].
  apply (unrecognized_command_leaves_loop DebugMessage
           (request 1 "restart" RunArguments)
           [request 2 "stack-frames" StackframeArguments] None
           (session "" [global_frame]
              [request 1 "restart" RunArguments;
               request 2 "stack-frames" StackframeArguments]));
    reflexivity.
Defined.

(** C8, on a session. The request that follows one with the unknown command
    ["restart"] is not read and gets no response: the loop has ended with
    the error. *)
Lemma loop_ends_at_unrecognized_command :
  let o :=
    snd (waitForRun DebugMessage None
           (session "" [global_frame]
              [request 1 "restart" RunArguments;
               request 2 "stack-frames" StackframeArguments])) in
  (exists s,
     o = Thrown (DebuggerError "Invalid command"
                   "Invalid command from adapter: restart") s)
  /\ pending (_channel (final o))
     = [request 2 "stack-frames" StackframeArguments]
  /\ sent (_channel (final o)) = [].
Proof.
  vm_compute. split; [eexists; reflexivity | split; reflexivity].
Qed.

Lemma processDebuggerCommand_rewrites_source_witness :
  occurs "/src/" "lib/a.js" = false
  /\ exists l',
       fst (processDebuggerCommand DebugMessage
              (request 1 "stack-frames" StackframeArguments)
              (Some (at_ "lib/a.js" 3 0)) (session "/src/" [global_frame] []))
       = Some l'
       /\ l' = at_ "lib/a.js" 3 0.
Proof.
  split; [reflexivity|].
  destruct (processDebuggerCommand_rewrites_source DebugMessage
              (request 1 "stack-frames" StackframeArguments)
              (at_ "lib/a.js" 3 0) (session "/src/" [global_frame] []))
    as (l' & Hl' & _ & _ & _ & Hsame).
  exists l'. split; [exact Hl'|].
  apply (Hsame "lib/a.js" eq_refl). right. reflexivity.
Defined.

(** C9, on a session. Under the prefix ["/"] a stack-frames request
    processed at the location [lib/a.js], line 3, rewrites the source of
    that location to [liba.js]. *)
Lemma processDebuggerCommand_changes_location :
  fst (processDebuggerCommand DebugMessage
         (request 1 "stack-frames" StackframeArguments)
         (Some (at_ "lib/a.js" 3 0)) (session "/" [global_frame] []))
  = Some (at_ "liba.js" 3 0)
  /\ source (at_ "liba.js" 3 0) <> source (at_ "lib/a.js" 3 0).
Proof.
  split; [reflexivity | discriminate].
Qed.

Lemma stackframes_response_witness :
  1 < List.length two_frames
  /\ exists frames frame location,
       processStackframesCommand 7 StackframeArguments
         (Some (at_ "a.js" 10 2)) (session "/p/" two_frames [])
       = Returned tt
           (set_channel (session "/p/" two_frames [])
              {| pending := []; sent := [StackframeResponse 7 frames] |})
       /\ nth_error frames 1 = Some (displayed "/p/" location 1 frame)
       /\ nth_error two_frames 0 = Some frame
       /\ location = _getFrameLocation (ec_loc (call_frame "main" (at_ "a.js" 3 1))).
Proof.
  split; [simpl; lia|].
  destruct (stackframes_response 7 StackframeArguments (Some (at_ "a.js" 10 2))
              (session "/p/" two_frames []))
    as (frames & Hresp & _ & Hnth & _).
  destruct (Hnth 1 ltac:(simpl; lia))
    as (frame & location & Hframe & Hshown & _ & Habove).
  destruct (Habove 0 eq_refl) as (above & Ha & Hl).
  exists frames, frame, location. simpl in Ha. inversion Ha; subst above.
  repeat split; auto.
Defined.

(** C5, on a session. Under the prefix ["/p/"], without a current
    location, the only frame of a stack of depth one is shown in the file
    ["/p/unknown"], not in ["unknown"]. *)
Lemma sentinel_is_prefixed :
  processStackframesCommand 7 StackframeArguments None
    (session "/p/" [global_frame] [])
  = Returned tt
      (set_channel (session "/p/" [global_frame] [])
         {| pending := [];
            sent := [StackframeResponse 7
                       [{| id := 0;
                           functionName := "(anonymous function)";
                           fileName := "/p/unknown";
                           sf_line := 0;
                           sf_column := 0 |}]] |})
  /\ "/p/unknown" <> "unknown".
Proof.
  split; [reflexivity | discriminate].
Qed.



(** ** More sessions with the reference collaborators *)

Lemma reference_commands_distinct : NoDup (command_names DebugMessage).
Proof. repeat constructor; simpl; intuition discriminate. Qed.

Lemma processDebuggerCommand_resumes_witness :
  exists s',
    snd (processDebuggerCommand DebugMessage (request 1 "run" RunArguments)
           None breakpoint_session)
    = Returned true s'
    /\ _variableManager s' = clean (_variableManager breakpoint_session)
    /\ _channel s' = _channel breakpoint_session.
Proof.
  eexists. split; [reflexivity|].
  pose proof (processDebuggerCommand_resumes DebugMessage
                (request 1 "run" RunArguments) None breakpoint_session _
                eq_refl) as (Hvm & Hch & _).
  split; [exact Hvm | exact Hch].
Defined.

Lemma waitForRun_returns_after_clean_witness :
  exists s',
    waitForRun DebugMessage None breakpoint_session = (None, Returned tt s')
    /\ exists vm before,
         _variableManager s' = clean vm
         /\ consulted s' = (before ++ [Call_clean])%list.
Proof.
  eexists. split; [reflexivity|].
  apply (waitForRun_returns_after_clean DebugMessage None breakpoint_session
           None _ eq_refl).
Defined.

Lemma step_command_needs_location_witness :
  In ("step-in", "in") (step_commands DebugMessage)
  /\ snd (processDebuggerCommand DebugMessage
            (request 1 "step-in" RunArguments) None breakpoint_session)
     = Thrown (InvariantViolation "") breakpoint_session.
Proof.
  split; [left; reflexivity|].
  apply (proj1 (step_command_needs_location DebugMessage
                  (request 1 "step-in" RunArguments) "in" breakpoint_session
                  reference_commands_distinct (or_introl eq_refl))).
Defined.

Lemma breakpoint_command_registers_witness :
  exists s',
    snd (processDebuggerCommand DebugMessage
           (request 4 "breakpoint-add"
              (BreakpointArguments
                 [{| bp_filePath := "/p/b.js"; bp_line := 3; bp_column := 0;
                     bp_enabled := true |}]))
           None (session "/p/" [global_frame] []))
    = Returned false s'
    /\ _breakpointManager s'
       = [{| bp_filePath := "b.js"; bp_line := 3; bp_column := 0;
             bp_enabled := true |}].
Proof.
  destruct (proj1 (breakpoint_command_registers DebugMessage
                     (request 4 "breakpoint-add"
                        (BreakpointArguments
                           [{| bp_filePath := "/p/b.js"; bp_line := 3;
                               bp_column := 0; bp_enabled := true |}]))
                     addBreakpointMulti "breakpoint-add-acknowledge" _
                     None (session "/p/" [global_frame] [])
                     reference_commands_distinct (or_introl eq_refl) eq_refl))
    as (s' & Hs' & Hbm & _).
  exists s'. split; [exact Hs' | exact Hbm].
Defined.

Lemma kind_mismatch_fails_witness :
  kind RunArguments <> "scopes"
  /\ snd (processDebuggerCommand DebugMessage (request 2 "scopes" RunArguments)
            None breakpoint_session)
     = Thrown (InvariantViolation "") breakpoint_session.
Proof.
  split; [discriminate|].
  apply (kind_mismatch_fails DebugMessage (request 2 "scopes" RunArguments)
           "scopes" None breakpoint_session reference_commands_distinct).
  - simpl. do 6 right. left. reflexivity.
  - discriminate.
Defined.

Lemma scopes_request_with_unknown_record_witness :
  let inner := InnerEnvironment DeclarativeEnvironmentRecord
                 (OutermostEnvironment BareEnvironmentRecord) in
  let frame := {| function := None; ec_loc := None;
                  lexicalEnvironment := Some inner |} in
  exists s',
    processScopesCommand 5 0 (session "" [frame] [])
    = Thrown (InvariantViolation "Invalid type of environment record") s'
    /\ sent (_channel s') = []
    /\ _variableManager s' = [inner].
Proof.
  intros inner frame.
  destruct (scopes_request_with_unknown_record 5 0 (session "" [frame] [])
              frame [inner] (OutermostEnvironment BareEnvironmentRecord) [])
    as (s' & Hs' & Hch & Hvm & _);
    try reflexivity; try (simpl; lia); try (repeat constructor).
  exists s'. split; [exact Hs'|]. split; [now rewrite Hch | exact Hvm].
Defined.

Lemma checkForActions_on_empty_channel_witness :
  let s := set_breakpointManager (session "/p/" [global_frame] [])
             [{| bp_filePath := "a"; bp_line := 10; bp_column := 2;
                 bp_enabled := true |}] in
  pending (_channel s) = []
  /\ match snd (checkForActions DebugMessage (node "a" 10 2) s) with
     | Returned _ s' => _channel s' = _channel s
     | Waiting s' =>
         exists reason k,
           position_of (_realm s) (node "a" 10 2) = Some k
           /\ _channel s'
              = {| pending := [];
                   sent := (sent (_channel s) ++ [stopped_at s k reason])%list |}
     | Thrown _ _ => False
     end.
Proof.
  intros s. split; [reflexivity|].
  apply (checkForActions_on_empty_channel DebugMessage (node "a" 10 2) s).
  reflexivity.
Defined.

Lemma empty_prefix_translates_nothing_witness :
  _sourcemapPrefix (session "" [global_frame] []) = ""
  /\ fst (processDebuggerCommand DebugMessage
            (request 1 "stack-frames" StackframeArguments)
            (Some (at_ "lib/a.js" 3 0)) (session "" [global_frame] []))
     = Some (at_ "lib/a.js" 3 0).
Proof.
  split; [reflexivity|].
  apply (proj1 (empty_prefix_translates_nothing DebugMessage
                  (request 1 "stack-frames" StackframeArguments)
                  (Some (at_ "lib/a.js" 3 0)) (session "" [global_frame] [])
                  eq_refl)).
Defined.

Lemma stackframes_request_top_frame_witness :
  exists top rest,
    snd (processDebuggerCommand DebugMessage
           (request 1 "stack-frames" StackframeArguments)
           (Some (at_ "/p/a.js" 10 2)) (session "/p/" two_frames []))
    = Returned false
        (set_channel (session "/p/" two_frames [])
           {| pending := [];
              sent := [StackframeResponse 1 (top :: rest)] |})
    /\ fileName top = "/p/a.js".
Proof.
  destruct (stackframes_request_top_frame DebugMessage
              (request 1 "stack-frames" StackframeArguments)
              (at_ "/p/a.js" 10 2) "/p/a.js" (session "/p/" two_frames [])
              reference_commands_distinct eq_refl eq_refl eq_refl eq_refl)
    as (top & rest & Hresp & _ & _ & Hsame & _); [discriminate|].
  exists top, rest. split; [exact Hresp|].
  apply Hsame; reflexivity.
Defined.

Lemma findSourcemapPrefix_reads_maps_with_contents_witness :
  _findSourcemapPrefix (fun contents => Some [contents])
    (fun owner src => owner ++ src) (fun paths => hd "" paths)
    (Some [{| sm_filePath := "/out/"; sourceMapContents := None |};
           {| sm_filePath := "/src/"; sourceMapContents := Some "a.js" |}])
  = Some "/src/a.js".
Proof.
  apply (proj1 (proj2 (findSourcemapPrefix_reads_maps_with_contents
                         (fun contents => Some [contents])
                         (fun owner src => owner ++ src)
                         (fun paths => hd "" paths))
                  [{| sm_filePath := "/out/"; sourceMapContents := None |};
                   {| sm_filePath := "/src/";
                      sourceMapContents := Some "a.js" |}])).
  reflexivity.
Defined.

Lemma constructor_waits_at_no_location_witness :
  exists o,
    DebugServer_constructor (C := collaborators) DebugMessage
      (fun contents => Some [contents])
      (fun owner src => owner ++ src) (fun paths => hd "" paths)
      ([] : list Breakpoint) (fun _ => ([] : list LexicalEnvironment))
      (fun _ _ => ([] : list Step)) tt
      {| pending := []; sent := [] |} [global_frame]
      {| sourceMaps := None; diagnosticSeverity := None |}
    = Some o
    /\ _diagnosticSeverity (final o) = "FatalError"
    /\ _sourcemapPrefix (final o) = "".
Proof.
  destruct (constructor_waits_at_no_location (C := collaborators)
              DebugMessage (fun contents => Some [contents])
              (fun owner src => owner ++ src) (fun paths => hd "" paths)
              ([] : list Breakpoint) (fun _ => ([] : list LexicalEnvironment))
              (fun _ _ => ([] : list Step)) tt
              {| pending := []; sent := [] |} [global_frame]
              {| sourceMaps := None; diagnosticSeverity := None |} ""
              eq_refl)
    as (o & Ho & _ & Hp & Hsev & _).
  exists o. split; [exact Ho|]. split; [exact Hsev | exact Hp].
Defined.

Lemma checkpoints_without_reason_witness :
  let s :=
    @Build_DebugServer idle_collaborators tt
      (@Build_DebugChannel idle_collaborators
         [request 1 "run" RunArguments] [])
      [global_frame] tt tt tt None "" "FatalError" [] in
  exists s',
    checkpoints (C := idle_collaborators) DebugMessage
      [([global_frame], node "a.js" 1 0); ([global_frame], node "a.js" 2 0);
       (two_frames, node "b.js" 7 4)] s
    = Returned tt s'
    /\ _channel s' = _channel s.
Proof.
  intros s.
  apply (checkpoints_without_reason (C := idle_collaborators) DebugMessage
           [([global_frame], node "a.js" 1 0); ([global_frame], node "a.js" 2 0);
            (two_frames, node "b.js" 7 4)] s).
  reflexivity.
Defined.

Lemma checkForActions_node_witness :
  stopped_sent
    (final (snd (checkForActions DebugMessage (node "b" 1 0)
                   breakpoint_session)))
  = stopped_sent breakpoint_session
  /\ fst (checkForActions DebugMessage (node "b" 1 0) breakpoint_session)
     = node "b" 1 0.
Proof.
  split; [reflexivity|].
  destruct (checkForActions_node DebugMessage (node "b" 1 0)
              breakpoint_session)
    as (_ & _ & consumed & _ & _ & Hidle).
  exact (proj2 (Hidle eq_refl)).
Defined.
